(** * RecycLens browser client: upload.js and camera.js

    A shallow embedding of the two scripts of the browser client, in both
    copies the repository carries:
    - [static/upload.js] and [static/camera.js] (modules [StaticUpload] and
      [StaticCamera]);
    - the second copy of [upload.js], the terser one, and the second copy
      of [camera.js], the null-checked one that passes [true] to
      [handleFile] (modules [OtherUpload] and [OtherCamera]).

    The page (DOM) is a record of the elements the scripts look up, each one
    optional because [getElementById] and [querySelector] may return [null].
    The module-level constants of the scripts ([submitBtn], [cameraFeed],
    ...) are bound when a script is evaluated; the model takes the page as
    parsed at that point, so that a module-level constant and a later lookup
    of the same id denote the same element.

    A handler is a procedure on the world (page, script variables, device
    streams) that finishes or throws; everything a handler does to the
    outside (alerts, requests, device calls) is appended to a trace. *)

From Stdlib Require Import Ascii String ZArith NArith DecimalString.
From stdpp Require Import gmap strings list.

Local Open Scope string_scope.
Local Open Scope list_scope.

(** ** Strings as the scripts use them *)

(** [String.prototype.toLowerCase] on one character.  File names are
    strings of 8-bit characters; the case mapping is the one of the ASCII
    letters, which is all that a comparison with the ASCII words "png",
    "jpg" and "jpeg" can observe. *)
Definition toLowerCase_char (c : ascii) : ascii :=
  let n := nat_of_ascii c in
  if (65 <=? n)%nat && (n <=? 90)%nat then ascii_of_nat (n + 32) else c.

Fixpoint toLowerCase (s : string) : string :=
  match s with
  | EmptyString => EmptyString
  | String c rest => String (toLowerCase_char c) (toLowerCase rest)
  end.

(** [s.split(sep)] for a one-character separator: the segments between the
    separators, in order; a string without separator gives one segment. *)
Fixpoint split (sep : ascii) (s : string) : list string :=
  match s with
  | EmptyString => [EmptyString]
  | String c rest =>
      if Ascii.eqb c sep then EmptyString :: split sep rest
      else match split sep rest with
           | seg :: segs => String c seg :: segs
           | [] => [String c EmptyString]
           end
  end.

(** [a.includes(x)] on an array of strings. *)
Definition includes (a : list string) (x : string) : bool :=
  existsb (String.eqb x) a.

Definition allowedExtensions : list string := ["png"; "jpg"; "jpeg"].

(** [name.split('.').pop().toLowerCase()]; [pop] of an empty array is
    [undefined] ([None]), on which [toLowerCase] would throw. *)
Definition fileExtension (name : string) : option string :=
  toLowerCase <$> last (split "." name).

(** ** JavaScript values of a response payload *)

(** The values a field of the parsed response can hold: the JSON scalars,
    with whole numbers for the numbers, and [undefined] for a field that is
    absent. *)
Inductive JsVal :=
| JUndefined
| JNull
| JBool (b : bool)
| JNum (n : Z)
| JStr (s : string).

(** Truthiness, as [&&], [||] and [if] test it. *)
Definition truthy (v : JsVal) : bool :=
  match v with
  | JUndefined | JNull => false
  | JBool b => b
  | JNum n => negb (n =? 0)%Z
  | JStr s => negb (String.eqb s "")
  end.

Definition string_of_Z (n : Z) : string := NilZero.string_of_int (Z.to_int n).
Definition string_of_N (n : N) : string := NilZero.string_of_uint (N.to_uint n).

(** The conversion a template literal applies to an interpolated value. *)
Definition ToString (v : JsVal) : string :=
  match v with
  | JUndefined => "undefined"
  | JNull => "null"
  | JBool true => "true"
  | JBool false => "false"
  | JNum n => string_of_Z n
  | JStr s => s
  end.

(** [a || b]. *)
Definition js_or (a b : JsVal) : JsVal := if truthy a then a else b.

(** The conversion of an assignment to [textContent]: [null] and
    [undefined] give the empty string. *)
Definition domString (v : JsVal) : string :=
  match v with
  | JUndefined | JNull => ""
  | _ => ToString v
  end.

(** What [response.json()] resolves to: a scalar, or an object with scalar
    fields.  (An array behaves as an object without the fields read here.) *)
Inductive Payload :=
| PScalar (v : JsVal)
| PObject (fields : gmap string JsVal).

(** [data.key]: [None] is the TypeError of a property read on [null] or
    [undefined]; a missing property reads as [undefined]. *)
Definition get_prop (data : Payload) (key : string) : option JsVal :=
  match data with
  | PScalar JNull | PScalar JUndefined => None
  | PScalar _ => Some JUndefined
  | PObject fields => Some (default JUndefined (fields !! key))
  end.

(** ** Files, page and world *)

Record File := {
  file_name : string;
  file_type : string;
  file_bits : list Byte.byte
}.

(** [#submitBtn] with its [.spinner] (its [style.display]) and its
    [.button-text] (its [textContent]). *)
Record Button := {
  disabled : bool;
  spinner : option string;
  button_text : option string
}.

(** [#preview]: [style.backgroundImage], whether [classList] holds
    'active', and the attribute [aria-hidden]. *)
Record Preview := {
  backgroundImage : string;
  class_active : bool;
  aria_hidden : option string
}.

(** [.dropzone-text]: [style.display] and [textContent]. *)
Record HelperText := {
  ht_display : string;
  ht_textContent : string
}.

(** [#dropzone]: [style.display] and its [.dropzone-text] child. *)
Record Dropzone := {
  dz_display : string;
  dz_text : option HelperText
}.

(** [#cameraFeed]: [srcObject] (a stream handle) and the frame size. *)
Record Video := {
  srcObject : option nat;
  videoWidth : N;
  videoHeight : N
}.

Record Page := {
  submitBtn : option Button;
  uploadForm : option string;        (* style.display *)
  resultsPanel : option string;      (* style.display *)
  predictionText : option string;    (* textContent *)
  preview : option Preview;
  dropzone : option Dropzone;
  cameraFeed : option Video;
  cameraInterface : option string;   (* style.display *)
  btnScan : option string            (* style.display *)
}.

(** Which [upload.js] has run [window.handleFile = handleFile]. *)
Inductive UploadScript := StaticUploadJs | OtherUploadJs.

(** What a handler does to the outside, in order. *)
Inductive Effect :=
| Alert (msg : string)
| ConsoleError (label : string)
| PreventDefault
| ReadAsDataURL (f : File)
| FetchPost (url field : string) (f : File)
| GetUserMedia (facingMode : string)
| VideoPlay
| TrackStop (stream track : nat)
| DrawImage (width height : N)
| ToBlob (mime : string) (quality_tenths : N)
| SetDisabled (b : bool).            (* a write of submitBtn.disabled *)

(** A media stream is the list of its tracks, [true] for a live track and
    [false] for one that was stopped; a stream handle is its index in
    [streams]. *)
Record World := {
  page : Page;
  selectedFile : option File;
  cameraStream : option nat;
  cameraCanvas : N * N;
  window_handleFile : option UploadScript;
  streams : list (list bool);
  trace : list Effect
}.

Definition set_page (f : Page -> Page) (w : World) : World :=
  {| page := f (page w); selectedFile := selectedFile w;
     cameraStream := cameraStream w; cameraCanvas := cameraCanvas w;
     window_handleFile := window_handleFile w; streams := streams w;
     trace := trace w |}.

Definition set_selectedFile (f : option File) (w : World) : World :=
  {| page := page w; selectedFile := f;
     cameraStream := cameraStream w; cameraCanvas := cameraCanvas w;
     window_handleFile := window_handleFile w; streams := streams w;
     trace := trace w |}.

Definition set_cameraStream (s : option nat) (w : World) : World :=
  {| page := page w; selectedFile := selectedFile w;
     cameraStream := s; cameraCanvas := cameraCanvas w;
     window_handleFile := window_handleFile w; streams := streams w;
     trace := trace w |}.

Definition set_cameraCanvas (c : N * N) (w : World) : World :=
  {| page := page w; selectedFile := selectedFile w;
     cameraStream := cameraStream w; cameraCanvas := c;
     window_handleFile := window_handleFile w; streams := streams w;
     trace := trace w |}.

Definition set_streams (f : list (list bool) -> list (list bool)) (w : World) : World :=
  {| page := page w; selectedFile := selectedFile w;
     cameraStream := cameraStream w; cameraCanvas := cameraCanvas w;
     window_handleFile := window_handleFile w; streams := f (streams w);
     trace := trace w |}.

Definition emit (e : Effect) (w : World) : World :=
  {| page := page w; selectedFile := selectedFile w;
     cameraStream := cameraStream w; cameraCanvas := cameraCanvas w;
     window_handleFile := window_handleFile w; streams := streams w;
     trace := trace w ++ [e] |}.

(** Writes to the page, one per element. *)
Definition put_submitBtn (f : Button -> Button) (pg : Page) : Page :=
  {| submitBtn := f <$> submitBtn pg; uploadForm := uploadForm pg;
     resultsPanel := resultsPanel pg; predictionText := predictionText pg;
     preview := preview pg; dropzone := dropzone pg;
     cameraFeed := cameraFeed pg; cameraInterface := cameraInterface pg;
     btnScan := btnScan pg |}.

Definition put_uploadForm (d : string) (pg : Page) : Page :=
  {| submitBtn := submitBtn pg; uploadForm := (fun _ => d) <$> uploadForm pg;
     resultsPanel := resultsPanel pg; predictionText := predictionText pg;
     preview := preview pg; dropzone := dropzone pg;
     cameraFeed := cameraFeed pg; cameraInterface := cameraInterface pg;
     btnScan := btnScan pg |}.

Definition put_resultsPanel (d : string) (pg : Page) : Page :=
  {| submitBtn := submitBtn pg; uploadForm := uploadForm pg;
     resultsPanel := (fun _ => d) <$> resultsPanel pg;
     predictionText := predictionText pg;
     preview := preview pg; dropzone := dropzone pg;
     cameraFeed := cameraFeed pg; cameraInterface := cameraInterface pg;
     btnScan := btnScan pg |}.

Definition put_predictionText (t : string) (pg : Page) : Page :=
  {| submitBtn := submitBtn pg; uploadForm := uploadForm pg;
     resultsPanel := resultsPanel pg;
     predictionText := (fun _ => t) <$> predictionText pg;
     preview := preview pg; dropzone := dropzone pg;
     cameraFeed := cameraFeed pg; cameraInterface := cameraInterface pg;
     btnScan := btnScan pg |}.

Definition put_preview (f : Preview -> Preview) (pg : Page) : Page :=
  {| submitBtn := submitBtn pg; uploadForm := uploadForm pg;
     resultsPanel := resultsPanel pg; predictionText := predictionText pg;
     preview := f <$> preview pg; dropzone := dropzone pg;
     cameraFeed := cameraFeed pg; cameraInterface := cameraInterface pg;
     btnScan := btnScan pg |}.

Definition put_dropzone (f : Dropzone -> Dropzone) (pg : Page) : Page :=
  {| submitBtn := submitBtn pg; uploadForm := uploadForm pg;
     resultsPanel := resultsPanel pg; predictionText := predictionText pg;
     preview := preview pg; dropzone := f <$> dropzone pg;
     cameraFeed := cameraFeed pg; cameraInterface := cameraInterface pg;
     btnScan := btnScan pg |}.

Definition put_cameraFeed (f : Video -> Video) (pg : Page) : Page :=
  {| submitBtn := submitBtn pg; uploadForm := uploadForm pg;
     resultsPanel := resultsPanel pg; predictionText := predictionText pg;
     preview := preview pg; dropzone := dropzone pg;
     cameraFeed := f <$> cameraFeed pg; cameraInterface := cameraInterface pg;
     btnScan := btnScan pg |}.

Definition put_cameraInterface (d : string) (pg : Page) : Page :=
  {| submitBtn := submitBtn pg; uploadForm := uploadForm pg;
     resultsPanel := resultsPanel pg; predictionText := predictionText pg;
     preview := preview pg; dropzone := dropzone pg;
     cameraFeed := cameraFeed pg;
     cameraInterface := (fun _ => d) <$> cameraInterface pg;
     btnScan := btnScan pg |}.

Definition put_btnScan (d : string) (pg : Page) : Page :=
  {| submitBtn := submitBtn pg; uploadForm := uploadForm pg;
     resultsPanel := resultsPanel pg; predictionText := predictionText pg;
     preview := preview pg; dropzone := dropzone pg;
     cameraFeed := cameraFeed pg; cameraInterface := cameraInterface pg;
     btnScan := (fun _ => d) <$> btnScan pg |}.

Definition with_display (d : string) (z : Dropzone) : Dropzone :=
  {| dz_display := d; dz_text := dz_text z |}.

Definition with_srcObject (s : option nat) (v : Video) : Video :=
  {| srcObject := s; videoWidth := videoWidth v; videoHeight := videoHeight v |}.

(** ** Procedures: finish or throw *)

Inductive Outcome :=
| Done (w : World)
| Threw (w : World).

Definition Proc := World -> Outcome.

Definition state_of (o : Outcome) : World :=
  match o with Done w | Threw w => w end.

Definition skip : Proc := Done.
Definition throw : Proc := Threw.
Definition lift (f : World -> World) : Proc := fun w => Done (f w).

Definition and_then (p q : Proc) : Proc :=
  fun w => match p w with Done w' => q w' | Threw w' => Threw w' end.

Notation "p ;;; q" := (and_then p q) (at level 62, right associativity).

(** [try { body } catch (error) { handler }]. *)
Definition try_catch (body handler : Proc) : Proc :=
  fun w => match body w with Done w' => Done w' | Threw w' => handler w' end.

(** [try { body } finally { fin }]: [fin] runs on both exits, and a throw of
    [body] goes on after it. *)
Definition try_finally (body fin : Proc) : Proc :=
  fun w => match body w with
           | Done w' => fin w'
           | Threw w' => Threw (state_of (fin w'))
           end.

(** An [x.prop = v] on an element that was not null-checked: a TypeError
    when the element is missing. *)
Definition write_unchecked {A} (get : Page -> option A) (upd : Page -> Page) : Proc :=
  fun w => match get (page w) with
           | Some _ => Done (set_page upd w)
           | None => Threw w
           end.

(** A call of an [async] function that is not awaited (an event listener,
    or a plain call): a throw inside rejects the returned promise and does
    not reach the caller. *)
Definition call_async (p : Proc) : Proc := fun w => Done (state_of (p w)).

(** ** The environment's answers *)

Inductive JsonOutcome :=
| JsonRejected
| JsonParsed (data : Payload).

(** How [fetch] and then [response.json()] settle. *)
Inductive FetchOutcome :=
| FetchRejected
| FetchResponse (ok : bool) (body : JsonOutcome).

(** How a [FileReader] settles: [onload] with the data URL, or an error
    (for which the scripts register no handler). *)
Inductive ReadOutcome :=
| ReadLoaded (result : string)
| ReadFailed.

(** ** The modes of section 4.4, read off the page *)

(** The scripts keep no mode variable; the mode is what the page shows.  A
    page is in PreviewReady when the three conditions of that mode hold;
    otherwise in ResultShown when the results panel is displayed, otherwise
    in CameraActive when the camera interface is, otherwise Empty.
    "Displayed" is the value the scripts write to show the element,
    ['flex']. *)
Inductive UIMode := Empty | PreviewReady | CameraActive | ResultShown.

(** Preview visible, helper text of the intake surface hidden, submit
    action enabled. *)
Definition previewReady (pg : Page) : bool :=
  match preview pg, dropzone pg, submitBtn pg with
  | Some p, Some z, Some b =>
      class_active p
      && match dz_text z with
         | Some t => String.eqb (ht_display t) "none"
         | None => false
         end
      && negb (disabled b)
  | _, _, _ => false
  end.

Definition resultShown (pg : Page) : bool :=
  match resultsPanel pg with Some d => String.eqb d "flex" | None => false end.

Definition cameraShown (pg : Page) : bool :=
  match cameraInterface pg with Some d => String.eqb d "flex" | None => false end.

Definition uiMode (pg : Page) : UIMode :=
  if previewReady pg then PreviewReady
  else if resultShown pg then ResultShown
  else if cameraShown pg then CameraActive
  else Empty.

(** A later task: [q] runs after [p] has returned, whether or not [p]
    threw (a reader's [onload], which fires once the call that started the
    read is over).  The outcome is the one of the call [p]: a throw of the
    later task is an uncaught error of that task and reaches no caller.
    The world is the one the later task leaves. *)
Definition then_task (p q : Proc) : Proc := fun w =>
  match p w with
  | Done w' => Done (state_of (q w'))
  | Threw w' => Threw (state_of (q w'))
  end.

(** [try { body } catch { handler }] where the last statement of [body]
    registers a callback: the callback runs later, outside the [try], and
    only if [body] got that far. *)
Definition try_catch_then (body handler later : Proc) : Proc :=
  fun w => match body w with Done w' => later w' | Threw w' => handler w' end.

Definition with_disabled (d : bool) (b : Button) : Button :=
  {| disabled := d; spinner := spinner b; button_text := button_text b |}.

Definition with_spinner (d : string) (b : Button) : Button :=
  {| disabled := disabled b; spinner := (fun _ => d) <$> spinner b;
     button_text := button_text b |}.

Definition with_button_text (t : string) (b : Button) : Button :=
  {| disabled := disabled b; spinner := spinner b;
     button_text := (fun _ => t) <$> button_text b |}.

Definition with_ht_display (d : string) (t : HelperText) : HelperText :=
  {| ht_display := d; ht_textContent := ht_textContent t |}.

Definition with_ht_textContent (s : string) (t : HelperText) : HelperText :=
  {| ht_display := ht_display t; ht_textContent := s |}.

Definition with_dz_text (f : HelperText -> HelperText) (z : Dropzone) : Dropzone :=
  {| dz_display := dz_display z; dz_text := f <$> dz_text z |}.

(** The preview as [reader.onload] leaves it, and as [displayResults]
    clears it. *)
Definition shown_preview (result : string) : Preview :=
  {| backgroundImage := "url('" +:+ result +:+ "')";
     class_active := true; aria_hidden := Some "false" |}.

Definition cleared_preview : Preview :=
  {| backgroundImage := "none"; class_active := false;
     aria_hidden := Some "true" |}.

(** How the reader started by [handleFile] settles: [onload] gets the data
    URL; nothing is registered for an error. *)
Definition reader_settles (rd : ReadOutcome) (onload : string -> Proc) : Proc :=
  match rd with
  | ReadLoaded result => onload result
  | ReadFailed => skip
  end.

Definition invalid_type_msg : string :=
  "Invalid file type. Please upload a PNG, JPG, or JPEG image.".
Definition no_image_msg : string := "Please select an image first.".
Definition network_error_msg : string :=
  "A network error occurred during classification. Check console.".
Definition classification_error_msg (err : JsVal) : string :=
  "Classification Error: " +:+ ToString (js_or err (JStr "Unknown error")).

(** ** static/upload.js *)

Module StaticUpload.

(** [showLoading(button)]; the script calls it with [submitBtn] only. *)
Definition showLoading : Proc := fun w =>
  match submitBtn (page w) with
  | None => Done w
  | Some _ =>
      Done (set_page (put_submitBtn (with_button_text "Classifying..."))
           (set_page (put_submitBtn (with_spinner "inline-block"))
           (emit (SetDisabled true)
           (set_page (put_submitBtn (with_disabled true)) w))))
  end.

(** [hideLoading(button)]; the script calls it with [submitBtn] only. *)
Definition hideLoading : Proc := fun w =>
  match submitBtn (page w) with
  | None => Done w
  | Some _ =>
      Done (set_page (put_submitBtn (with_button_text "Classify Plastic"))
           (set_page (put_submitBtn (with_spinner "none"))
           (emit (SetDisabled false)
           (set_page (put_submitBtn (with_disabled false)) w))))
  end.

Definition displayResults (data : Payload) : Proc :=
  (fun w => match predictionText (page w) with
            | None => Done w
            | Some _ =>
                match get_prop data "prediction" with
                | None => Threw w
                | Some v => Done (set_page (put_predictionText (domString v)) w)
                end
            end) ;;;
  lift (set_page (put_uploadForm "none")) ;;;
  lift (set_page (put_resultsPanel "flex")) ;;;
  lift (set_page (put_preview (fun _ => cleared_preview))).

(** [classifyImage(e)], with the answer of the network to its one request.
    [e] is [None] for the call [classifyImage(null)]. *)
Definition classifyImage (e : option unit) (net : FetchOutcome) : Proc :=
  match e with Some _ => lift (emit PreventDefault) | None => skip end ;;;
  fun w =>
    match selectedFile w with
    | None => Done (emit (Alert no_image_msg) w)
    | Some file =>
        try_finally
          (try_catch
             (showLoading ;;;
              lift (emit (FetchPost "/predict" "file" file)) ;;;
              match net with
              | FetchRejected => throw
              | FetchResponse _ JsonRejected => throw
              | FetchResponse ok (JsonParsed data) =>
                  (* response.ok && data.success *)
                  match (if ok then truthy <$> get_prop data "success"
                         else Some false) with
                  | None => throw
                  | Some true => displayResults data
                  | Some false =>
                      match get_prop data "error" with
                      | None => throw
                      | Some err =>
                          lift (emit (Alert (classification_error_msg err))) ;;;
                          lift (emit (ConsoleError "Prediction failed:"))
                      end
                  end
              end)
             (lift (emit (Alert network_error_msg)) ;;;
              lift (emit (ConsoleError "Fetch error:"))))
          hideLoading w
    end.

(** The body of [reader.onload] up to the test of [autoClassify]. *)
Definition apply_preview (result : string) : Proc :=
  lift (set_page (put_preview (fun _ => shown_preview result))) ;;;
  lift (set_page (put_dropzone (with_dz_text (with_ht_display "none")))) ;;;
  fun w => match submitBtn (page w) with
           | None => Done w
           | Some _ =>
               Done (emit (SetDisabled false)
                    (set_page (put_submitBtn (with_disabled false)) w))
           end.

Definition reader_onload (autoClassify : bool) (net : FetchOutcome)
    (result : string) : Proc :=
  apply_preview result ;;;
  (if autoClassify then call_async (classifyImage None net) else skip).

(** [handleFile(file, autoClassify = false)]; [autoClassify] is [None] when
    the caller passes one argument.  [rd] and [net] are the answers of the
    reader it starts and of the request of an auto-classification; with
    [ReadFailed] this is the call alone, up to its return. *)
Definition handleFile (file : File) (autoClassify : option bool)
    (rd : ReadOutcome) (net : FetchOutcome) : Proc := fun w =>
  match fileExtension (file_name file) with
  | None => Threw w
  | Some ext =>
      if negb (includes allowedExtensions ext)
      then Done (emit (Alert invalid_type_msg) w)
      else
        (lift (set_selectedFile (Some file)) ;;;
         lift (emit (ReadAsDataURL file)) ;;;
         reader_settles rd (reader_onload (default false autoClassify) net)) w
  end.

End StaticUpload.

(** ** The second upload.js *)

Module OtherUpload.

Definition showLoading : Proc := fun w =>
  match submitBtn (page w) with
  | None => Done w
  | Some b =>
      (lift (set_page (put_submitBtn (with_disabled true))) ;;;
       lift (emit (SetDisabled true)) ;;;
       (fun w => match spinner b with
                 | None => Threw w
                 | Some _ => Done (set_page (put_submitBtn (with_spinner "inline-block")) w)
                 end) ;;;
       (fun w => match button_text b with
                 | None => Threw w
                 | Some _ => Done (set_page (put_submitBtn (with_button_text "Classifying...")) w)
                 end)) w
  end.

Definition hideLoading : Proc := fun w =>
  match submitBtn (page w) with
  | None => Done w
  | Some b =>
      (lift (set_page (put_submitBtn (with_disabled false))) ;;;
       lift (emit (SetDisabled false)) ;;;
       (fun w => match spinner b with
                 | None => Threw w
                 | Some _ => Done (set_page (put_submitBtn (with_spinner "none")) w)
                 end) ;;;
       (fun w => match button_text b with
                 | None => Threw w
                 | Some _ => Done (set_page (put_submitBtn (with_button_text "Classify Plastic")) w)
                 end)) w
  end.

Definition displayResults (data : Payload) : Proc :=
  (fun w => match predictionText (page w), get_prop data "prediction" with
            | Some _, Some v => Done (set_page (put_predictionText (domString v)) w)
            | _, _ => Threw w
            end) ;;;
  write_unchecked uploadForm (put_uploadForm "none") ;;;
  write_unchecked resultsPanel (put_resultsPanel "flex") ;;;
  write_unchecked preview (put_preview (fun _ => cleared_preview)).

(** [classifyImage(e)]: [e.preventDefault()] is not guarded here. *)
Definition classifyImage (e : option unit) (net : FetchOutcome) : Proc :=
  match e with Some _ => lift (emit PreventDefault) | None => throw end ;;;
  fun w =>
    match selectedFile w with
    | None => Done (emit (Alert no_image_msg) w)
    | Some file =>
        try_finally
          (try_catch
             (showLoading ;;;
              lift (emit (FetchPost "/predict" "file" file)) ;;;
              match net with
              | FetchRejected => throw
              | FetchResponse _ JsonRejected => throw
              | FetchResponse ok (JsonParsed data) =>
                  match (if ok then truthy <$> get_prop data "success"
                         else Some false) with
                  | None => throw
                  | Some true => displayResults data
                  | Some false =>
                      match get_prop data "error" with
                      | None => throw
                      | Some err =>
                          lift (emit (Alert (classification_error_msg err))) ;;;
                          lift (emit (ConsoleError "Prediction failed:"))
                      end
                  end
              end)
             (lift (emit (Alert network_error_msg)) ;;;
              lift (emit (ConsoleError "Fetch error:"))))
          hideLoading w
    end.

(** The body of [reader.onload]: the helper text is overwritten with the
    file name, not hidden. *)
Definition reader_onload (file : File) (result : string) : Proc :=
  write_unchecked preview (put_preview (fun _ => shown_preview result)) ;;;
  fun w => match dropzone (page w) with
           | Some z =>
               match dz_text z with
               | Some _ =>
                   Done (set_page (put_dropzone (with_dz_text
                          (with_ht_textContent ("File: " +:+ file_name file)))) w)
               | None => Threw w
               end
           | None => Threw w
           end.

(** [handleFile(file)]: one parameter, a second argument is ignored.  The
    button is enabled by the call itself, after the read was started, and
    that write is not null-checked: without [#submitBtn] the call throws,
    and the reader it has started still settles afterwards. *)
Definition handleFile (file : File) (rd : ReadOutcome) : Proc := fun w =>
  match fileExtension (file_name file) with
  | None => Threw w
  | Some ext =>
      if negb (includes allowedExtensions ext)
      then Done (emit (Alert invalid_type_msg) w)
      else
        (lift (set_selectedFile (Some file)) ;;;
         lift (emit (ReadAsDataURL file)) ;;;
         then_task
           (write_unchecked submitBtn (put_submitBtn (with_disabled false)) ;;;
            lift (emit (SetDisabled false)))
           (reader_settles rd (reader_onload file))) w
  end.

End OtherUpload.

(** [window.handleFile(file)] and [window.handleFile(file, true)]: the call
    reaches the [handleFile] of the upload script that was loaded. *)
Definition call_handleFile (s : UploadScript) (file : File) (flag : option bool)
    (rd : ReadOutcome) (net : FetchOutcome) : Proc :=
  match s with
  | StaticUploadJs => StaticUpload.handleFile file flag rd net
  | OtherUploadJs => OtherUpload.handleFile file rd
  end.

(** ** The capture device *)

(** How [getUserMedia] settles: a rejection, or a new stream with so many
    live tracks. *)
Inductive GumOutcome :=
| GumRejected
| GumStream (tracks : nat).

(** What the environment answers during one capture: whether the frame
    can be drawn (when not, the [try] block throws), the blob of [toBlob]
    ([None] for a null blob), the clock, and the answers to the reader and
    request that [handleFile] may start. *)
Record CaptureEnv := {
  draw_ok : bool;
  blob : option (list Byte.byte);
  timestamp : N;
  cap_read : ReadOutcome;
  cap_net : FetchOutcome
}.

Definition emit_all (es : list Effect) (w : World) : World :=
  {| page := page w; selectedFile := selectedFile w;
     cameraStream := cameraStream w; cameraCanvas := cameraCanvas w;
     window_handleFile := window_handleFile w; streams := streams w;
     trace := trace w ++ es |}.

(** [stream.getTracks().forEach(track => track.stop())]. *)
Definition stop_all_tracks (id : nat) (w : World) : World :=
  let n := length (default [] (streams w !! id)) in
  emit_all (TrackStop id <$> seq 0 n)
    (set_streams (alter (fmap (fun _ => false)) id) w).

(** [if (cameraStream) { ...stop all tracks...; cameraStream = null; }],
    the first statement of [stopCamera] in both copies. *)
Definition release_stream : Proc := fun w =>
  match cameraStream w with
  | Some id => Done (set_cameraStream None (stop_all_tracks id w))
  | None => Done w
  end.

(** The stream [getUserMedia] resolves with is a new one. *)
Definition open_stream (tracks : nat) (w : World) : World :=
  set_cameraStream (Some (length (streams w)))
    (set_streams (fun l => (l ++ [replicate tracks true])%list) w).

Definition live (tracks : list bool) : bool := existsb id tracks.

(** The handles of the streams that still have a live track. *)
Definition live_streams (w : World) : list nat :=
  filter (fun i => live (default [] (streams w !! i))) (seq 0 (length (streams w))).

Definition camera_denied_msg : string :=
  "Unable to access camera. Please check permissions.".
Definition no_handler_msg : string :=
  "Error: Classification logic not loaded. Cannot process image.".
Definition encode_failed_msg : string :=
  "Failed to create image file from capture.".
Definition capture_failed_msg : string :=
  "Failed to capture photo. Check console for details.".

(** [new File([blob], `camera_capture_${timestamp}.jpg`, {type: 'image/jpeg'})]. *)
Definition captured_file (bits : list Byte.byte) (ts : N) : File :=
  {| file_name := "camera_capture_" +:+ string_of_N ts +:+ ".jpg";
     file_type := "image/jpeg";
     file_bits := bits |}.

(** The statements of [startCamera] between its two [await]s, shared by
    both copies: the request, and what follows when it settles. *)
Definition request_stream : Proc := lift (emit (GetUserMedia "environment")).

Definition stream_settles (gum : GumOutcome) : Proc :=
  match gum with
  | GumRejected => throw
  | GumStream tracks =>
      lift (open_stream tracks) ;;;
      (fun w => write_unchecked cameraFeed
                  (put_cameraFeed (with_srcObject (cameraStream w))) w) ;;;
      lift (emit VideoPlay)
  end.

Definition play_settles (play_ok : bool) (show_camera : Proc) : Proc :=
  if play_ok then show_camera else throw.

(** The statements of [capturePhoto] inside its [try], up to [toBlob]. *)
Definition draw_frame (env : CaptureEnv) (v : Video) : Proc :=
  lift (set_cameraCanvas (videoWidth v, videoHeight v)) ;;;
  (if draw_ok env
   then lift (emit (DrawImage (videoWidth v) (videoHeight v)))
   else throw) ;;;
  lift (emit (ToBlob "image/jpeg" 9)).

Definition capture_failed : Proc :=
  lift (emit (Alert capture_failed_msg)) ;;;
  lift (emit (ConsoleError "Capture error:")).

(** [if (window.handleFile) window.handleFile(capturedFile, ...) else
    alert(...)]: [flag] is the second argument, [None] when the call has
    only one. *)
Definition pass_to_handleFile (flag : option bool) (env : CaptureEnv)
    (bits : list Byte.byte) : Proc := fun w =>
  match window_handleFile w with
  | Some s =>
      call_handleFile s (captured_file bits (timestamp env)) flag
        (cap_read env) (cap_net env) w
  | None => Done (emit (Alert no_handler_msg) w)
  end.

(** ** static/camera.js *)

Module StaticCamera.

Definition stopCamera : Proc :=
  release_stream ;;;
  write_unchecked cameraFeed (put_cameraFeed (with_srcObject None)) ;;;
  write_unchecked cameraInterface (put_cameraInterface "none") ;;;
  write_unchecked dropzone (put_dropzone (with_display "flex")) ;;;
  write_unchecked btnScan (put_btnScan "block").

Definition show_camera : Proc :=
  write_unchecked cameraInterface (put_cameraInterface "flex") ;;;
  write_unchecked dropzone (put_dropzone (with_display "none")) ;;;
  write_unchecked btnScan (put_btnScan "none").

Definition start_failed : Proc :=
  lift (emit (Alert camera_denied_msg)) ;;;
  lift (emit (ConsoleError "Camera error:")) ;;;
  stopCamera.

(** [startCamera()], with the answers to its two [await]s. *)
Definition startCamera (gum : GumOutcome) (play_ok : bool) : Proc := fun w =>
  match cameraFeed (page w) with
  | None => Done w
  | Some _ =>
      try_catch
        (request_stream ;;; stream_settles gum ;;; play_settles play_ok show_camera)
        start_failed w
  end.

(** The callback given to [toBlob]. *)
Definition toBlob_callback (env : CaptureEnv) : Proc :=
  match blob env with
  | Some bits => stopCamera ;;; pass_to_handleFile None env bits
  | None => lift (emit (Alert encode_failed_msg))
  end.

Definition capturePhoto (env : CaptureEnv) : Proc := fun w =>
  match cameraStream w, cameraFeed (page w) with
  | Some _, Some v =>
      try_catch_then (draw_frame env v) capture_failed (toBlob_callback env) w
  | _, _ => Done w
  end.

End StaticCamera.

(** ** The second camera.js *)

Module OtherCamera.

Definition stopCamera : Proc :=
  release_stream ;;;
  lift (set_page (put_cameraFeed (with_srcObject None))) ;;;
  lift (set_page (put_cameraInterface "none")) ;;;
  lift (set_page (put_dropzone (with_display "flex"))) ;;;
  lift (set_page (put_btnScan "block")).

Definition show_camera : Proc :=
  lift (set_page (put_cameraInterface "flex")) ;;;
  lift (set_page (put_dropzone (with_display "none"))) ;;;
  lift (set_page (put_btnScan "none")).

Definition start_failed : Proc :=
  lift (emit (Alert camera_denied_msg)) ;;;
  lift (emit (ConsoleError "Camera error:")) ;;;
  stopCamera.

Definition startCamera (gum : GumOutcome) (play_ok : bool) : Proc := fun w =>
  match cameraFeed (page w) with
  | None => Done w
  | Some _ =>
      try_catch
        (request_stream ;;; stream_settles gum ;;; play_settles play_ok show_camera)
        start_failed w
  end.

(** The callback given to [toBlob]; this copy passes [true]. *)
Definition toBlob_callback (env : CaptureEnv) : Proc :=
  match blob env with
  | Some bits => stopCamera ;;; pass_to_handleFile (Some true) env bits
  | None => lift (emit (Alert encode_failed_msg))
  end.

Definition capturePhoto (env : CaptureEnv) : Proc := fun w =>
  match cameraStream w, cameraFeed (page w) with
  | Some _, Some v =>
      try_catch_then (draw_frame env v) capture_failed (toBlob_callback env) w
  | _, _ => Done w
  end.

End OtherCamera.

(** ** Page load and user events *)

Inductive CameraScript := StaticCameraJs | OtherCameraJs.

Definition set_window_handleFile (s : option UploadScript) (w : World) : World :=
  {| page := page w; selectedFile := selectedFile w;
     cameraStream := cameraStream w; cameraCanvas := cameraCanvas w;
     window_handleFile := s; streams := streams w;
     trace := trace w |}.

(** The script variables when the page has just been parsed: nothing
    selected, no stream, a canvas of the default size. *)
Definition fresh (pg : Page) : World :=
  {| page := pg; selectedFile := None; cameraStream := None;
     cameraCanvas := (300%N, 150%N); window_handleFile := None;
     streams := []; trace := [] |}.

(** What [initUpload] (the same in both copies) does besides adding
    listeners. *)
Definition initUpload (s : UploadScript) : Proc :=
  lift (set_window_handleFile (Some s)) ;;;
  lift (set_page (put_uploadForm "block")) ;;;
  lift (set_page (put_resultsPanel "none")).

Definition loaded (pg : Page) (upload : option UploadScript) : World :=
  match upload with
  | Some s => state_of (initUpload s (fresh pg))
  | None => fresh pg
  end.

(** A user event together with the answers the environment gives while it
    is handled.  Each event is handled to its end, its [await]s and
    callbacks included, before the next one. *)
Inductive Event :=
| ClickScan (gum : GumOutcome) (play_ok : bool)
| ClickSnap (env : CaptureEnv)
| ChooseFile (file : File) (rd : ReadOutcome)
| SubmitForm (net : FetchOutcome).

(** The scan button can be clicked when it exists ([initCamera] adds its
    listener only then) and is not hidden. *)
Definition scan_clickable (pg : Page) : bool :=
  match btnScan pg with
  | Some d => negb (String.eqb d "none")
  | None => false
  end.

Definition startCamera_of (cam : CameraScript) : GumOutcome -> bool -> Proc :=
  match cam with
  | StaticCameraJs => StaticCamera.startCamera
  | OtherCameraJs => OtherCamera.startCamera
  end.

Definition capturePhoto_of (cam : CameraScript) : CaptureEnv -> Proc :=
  match cam with
  | StaticCameraJs => StaticCamera.capturePhoto
  | OtherCameraJs => OtherCamera.capturePhoto
  end.

Definition classifyImage_of (s : UploadScript) : option unit -> FetchOutcome -> Proc :=
  match s with
  | StaticUploadJs => StaticUpload.classifyImage
  | OtherUploadJs => OtherUpload.classifyImage
  end.

Definition handle (cam : CameraScript) (ev : Event) : Proc := fun w =>
  match ev with
  | ClickScan gum play_ok =>
      if scan_clickable (page w)
      then call_async (startCamera_of cam gum play_ok) w
      else Done w
  | ClickSnap env => capturePhoto_of cam env w
  | ChooseFile file rd =>
      (* handleFile(files[0]): one argument, so no request is made and the
         answer of the network is not consulted *)
      match window_handleFile w with
      | Some s => call_handleFile s file None rd FetchRejected w
      | None => Done w
      end
  | SubmitForm net =>
      match window_handleFile w with
      | Some s => call_async (classifyImage_of s (Some tt) net) w
      | None => Done w
      end
  end.

Definition step (cam : CameraScript) (w : World) (ev : Event) : World :=
  state_of (handle cam ev w).

Definition run (cam : CameraScript) (evs : list Event) (w : World) : World :=
  fold_left (step cam) evs w.

Definition reachable (cam : CameraScript) (w : World) : Prop :=
  exists pg upload evs, w = run cam evs (loaded pg upload).

(** The two resumptions of [startCamera] taken apart, for runs in which
    another event is handled while a start is waiting: the click up to the
    first [await], the code up to the second, and the rest. *)
Definition startCamera_click : Proc := fun w =>
  match cameraFeed (page w) with
  | None => Done w
  | Some _ => request_stream w
  end.

Definition startCamera_resume_stream (cam : CameraScript) (gum : GumOutcome) : Proc :=
  match cam with
  | StaticCameraJs => try_catch (stream_settles gum) StaticCamera.start_failed
  | OtherCameraJs => try_catch (stream_settles gum) OtherCamera.start_failed
  end.

Definition startCamera_resume_play (cam : CameraScript) (play_ok : bool) : Proc :=
  match cam with
  | StaticCameraJs =>
      try_catch (play_settles play_ok StaticCamera.show_camera) StaticCamera.start_failed
  | OtherCameraJs =>
      try_catch (play_settles play_ok OtherCamera.show_camera) OtherCamera.start_failed
  end.

(** ** Reading traces and sessions *)

Definition busy_writes (es : list Effect) : list bool :=
  omap (fun e => match e with SetDisabled b => Some b | _ => None end) es.

Definition alerts (es : list Effect) : list string :=
  omap (fun e => match e with Alert m => Some m | _ => None end) es.

Definition requests (es : list Effect) : list (string * string * File) :=
  omap (fun e => match e with FetchPost u k f => Some (u, k, f) | _ => None end) es.

Definition track_stops (es : list Effect) : list (nat * nat) :=
  omap (fun e => match e with TrackStop s t => Some (s, t) | _ => None end) es.

(** The requests issued so far. *)
Definition requested (w : World) : list (string * string * File) :=
  requests (trace w).

(** The session is torn down: no stream handle, and no live track on the
    stream that was the session's. *)
Definition torn_down (id : nat) (w : World) : Prop :=
  cameraStream w = None /\ live (default [] (streams w !! id)) = false.

Definition has_dot (s : string) : bool :=
  existsb (Ascii.eqb ".") (list_ascii_of_string s).

(** The outcome of a request in the words of section 4.3: the transport
    succeeded and the payload indicates success; the payload could be read
    but it, or the status, indicates failure; nothing could be read. *)
Inductive Verdict :=
| Classified (label : JsVal)
| ApplicationError (err : JsVal)
| TransportError.

Definition spec_verdict (net : FetchOutcome) : Verdict :=
  match net with
  | FetchRejected => TransportError
  | FetchResponse _ JsonRejected => TransportError
  | FetchResponse ok (JsonParsed data) =>
      match get_prop data "success", get_prop data "error",
            get_prop data "prediction" with
      | Some s, Some err, Some label =>
          if ok && truthy s then Classified label else ApplicationError err
      | _, _, _ => TransportError
      end
  end.

(** The submit button as [hideLoading] leaves it. *)
Definition idle_button (b : Button) : Button :=
  with_button_text "Classify Plastic" (with_spinner "none" (with_disabled false b)).

(** ** Example page and inputs *)

Definition example_page : Page :=
  {| submitBtn := Some {| disabled := true; spinner := Some "none";
                          button_text := Some "Classify Plastic" |};
     uploadForm := Some "";
     resultsPanel := Some "";
     predictionText := Some "";
     preview := Some {| backgroundImage := ""; class_active := false;
                        aria_hidden := Some "true" |};
     dropzone := Some {| dz_display := "";
                         dz_text := Some {| ht_display := "";
                                            ht_textContent := "Drop an image here" |} |};
     cameraFeed := Some {| srcObject := None; videoWidth := 640; videoHeight := 480 |};
     cameraInterface := Some "";
     btnScan := Some "" |}.

Definition photo_png : File :=
  {| file_name := "photo.png"; file_type := "image/png"; file_bits := [] |}.

Definition doc_pdf : File :=
  {| file_name := "doc.pdf"; file_type := "application/pdf"; file_bits := [] |}.

Definition hdpe_response : FetchOutcome :=
  FetchResponse true
    (JsonParsed (PObject {[ "success" := JBool true; "prediction" := JStr "HDPE" ]})).

Definition unavailable_response : FetchOutcome :=
  FetchResponse true
    (JsonParsed (PObject {[ "success" := JBool false;
                            "error" := JStr "model unavailable" ]})).

(** A capture whose frame is drawn and encoded, and whose image is then
    read and classified as HDPE. *)
Definition good_capture : CaptureEnv :=
  {| draw_ok := true; blob := Some []; timestamp := 1700000000000;
     cap_read := ReadLoaded "data:image/jpeg;base64,AA";
     cap_net := hdpe_response |}.

(** The same capture with a null blob from the encoder. *)
Definition null_blob_capture : CaptureEnv :=
  {| draw_ok := true; blob := None; timestamp := 1700000000000;
     cap_read := ReadLoaded "data:image/jpeg;base64,AA";
     cap_net := hdpe_response |}.

(** The page with a scripts pair loaded and the camera started: one stream
    with one live track. *)
Definition camera_on (cam : CameraScript) (upload : UploadScript) : World :=
  run cam [ClickScan (GumStream 1) true] (loaded example_page (Some upload)).

(** The page with [photo.png] chosen and its preview applied. *)
Definition photo_chosen (upload : UploadScript) : World :=
  run StaticCameraJs [ChooseFile photo_png (ReadLoaded "data:image/png;base64,AA")]
    (loaded example_page (Some upload)).

(** ** The listeners of upload.js *)

(** What a listener asks of the browser besides the effects of the trace:
    [submitBtn.scrollIntoView(...)], [fileInput.click()] and
    [window.location.reload()]. *)
Inductive Gesture := ScrollSubmitIntoView | OpenFilePicker | ReloadPage.

(** The world together with what only the listeners touch: whether the
    dropzone carries the class 'drag-over', whether the page has the
    [#fileInput] element, and the gestures asked so far. *)
Record Intake := {
  world : World;
  drag_over : bool;
  fileInput : bool;
  gestures : list Gesture
}.

Definition with_world (w : World) (s : Intake) : Intake :=
  {| world := w; drag_over := drag_over s; fileInput := fileInput s;
     gestures := gestures s |}.

Definition with_drag_over (b : bool) (s : Intake) : Intake :=
  {| world := world s; drag_over := b; fileInput := fileInput s;
     gestures := gestures s |}.

Definition ask (g : Gesture) (s : Intake) : Intake :=
  {| world := world s; drag_over := drag_over s; fileInput := fileInput s;
     gestures := gestures s ++ [g] |}.

Definition drop_failed_msg : string :=
  "Drag & drop failed. Please click to select a file.".

(** [handleDragOver] and [handleDragLeave], the same in both copies. *)
Definition handleDragOver (s : Intake) : Intake :=
  with_drag_over true (with_world (emit PreventDefault (world s)) s).

Definition handleDragLeave (s : Intake) : Intake :=
  with_drag_over false (with_world (emit PreventDefault (world s)) s).

(** The listener of the reset button, the same in both copies. *)
Definition reset_click (s : Intake) : Intake :=
  ask ReloadPage (with_world (emit PreventDefault (world s)) s).

Module StaticListeners.

(** [handleDrop(e)] with [e.dataTransfer.files] and the answer of the
    reader that [handleFile] may start.  A throw of [handleFile] would end
    the listener before the scroll. *)
Definition handleDrop (files : list File) (rd : ReadOutcome) (s : Intake) : Intake :=
  let s1 := with_drag_over false (with_world (emit PreventDefault (world s)) s) in
  match files with
  | file :: _ =>
      match StaticUpload.handleFile file None rd FetchRejected (world s1) with
      | Done w2 =>
          match submitBtn (page w2) with
          | Some _ => ask ScrollSubmitIntoView (with_world w2 s1)
          | None => with_world w2 s1
          end
      | Threw w2 => with_world w2 s1
      end
  | [] => with_world (emit (Alert drop_failed_msg) (world s1)) s1
  end.

(** [handleFileInputChange(e)] with [e.target.files]. *)
Definition handleFileInputChange (files : list File) (rd : ReadOutcome)
    (s : Intake) : Intake :=
  match files with
  | file :: _ =>
      with_world (state_of (StaticUpload.handleFile file None rd FetchRejected
                              (world s))) s
  | [] => s
  end.

(** The click listener of the dropzone:
    [if (!selectedFile && fileInput) fileInput.click()]. *)
Definition dropzone_click (s : Intake) : Intake :=
  match selectedFile (world s) with
  | None => if fileInput s then ask OpenFilePicker s else s
  | Some _ => s
  end.

End StaticListeners.

Module OtherListeners.

(** [handleDrop(e)]: no scroll, and nothing is said on an empty drop. *)
Definition handleDrop (files : list File) (rd : ReadOutcome) (s : Intake) : Intake :=
  let s1 := with_drag_over false (with_world (emit PreventDefault (world s)) s) in
  match files with
  | file :: _ =>
      with_world (state_of (OtherUpload.handleFile file rd (world s1))) s1
  | [] => s1
  end.

Definition handleFileInputChange (files : list File) (rd : ReadOutcome)
    (s : Intake) : Intake :=
  match files with
  | file :: _ => with_world (state_of (OtherUpload.handleFile file rd (world s))) s
  | [] => s
  end.

(** The click listener of the dropzone: [if (!selectedFile)
    fileInput.click()], a TypeError when the page has no [#fileInput]. *)
Definition dropzone_click (s : Intake) : Intake :=
  match selectedFile (world s) with
  | None => if fileInput s then ask OpenFilePicker s else s
  | Some _ => s
  end.

End OtherListeners.

(** ** Observations used by the properties *)

(** [p] leaves the observation [f] of the world as it was, on both exits. *)
Definition preserves {A} (f : World -> A) (p : Proc) : Prop :=
  forall w, f (state_of (p w)) = f w.

(** The observation of the capture device and of the scan button: no
    handler of either upload script touches it. *)
Definition camera_view (w : World) : list (list bool) * option nat * option string :=
  (streams w, cameraStream w, btnScan (page w)).

Definition stopCamera_of (cam : CameraScript) : Proc :=
  match cam with
  | StaticCameraJs => StaticCamera.stopCamera
  | OtherCameraJs => OtherCamera.stopCamera
  end.

(** The second argument each copy of [camera.js] gives to
    [window.handleFile]. *)
Definition capture_flag (cam : CameraScript) : option bool :=
  match cam with
  | StaticCameraJs => None
  | OtherCameraJs => Some true
  end.

(** The observation of the capture device alone. *)
Definition session_view (w : World) : list (list bool) * option nat :=
  (streams w, cameraStream w).

(** Stream [i] of the device has a live track. *)
Definition live_at (st : list (list bool)) (i : nat) : bool :=
  live (default [] (st !! i)).

Definition is_live (w : World) (i : nat) : Prop :=
  live_at (streams w) i = true.

(** The invariant of a session on the three things it reads: the streams,
    the stream handle, and whether the scan button can be clicked. *)
Definition inv_of (st : list (list bool)) (cs : option nat) (clickable : bool) : Prop :=
  (forall i, live_at st i = true -> cs = Some i)
  /\ (is_Some cs -> clickable = false).

(** Every stream with a live track is the one [cameraStream] holds, and
    while [cameraStream] holds a stream the scan button cannot be
    clicked. *)
Definition session_inv (w : World) : Prop :=
  inv_of (streams w) (cameraStream w) (scan_clickable (page w)).

(** What one run of [classifyImage] on a selected image adds to the trace
    once the request has settled, and the page it leaves, by verdict. *)
Definition verdict_effects (v : Verdict) : list Effect :=
  match v with
  | Classified _ => []
  | ApplicationError err =>
      [Alert (classification_error_msg err); ConsoleError "Prediction failed:"]
  | TransportError =>
      [Alert network_error_msg; ConsoleError "Fetch error:"]
  end.

Definition settled_page (v : Verdict) (pg : Page) : Page :=
  match v with
  | Classified label =>
      put_preview (fun _ => cleared_preview)
        (put_resultsPanel "flex"
          (put_uploadForm "none"
            (put_predictionText (domString label)
              (put_submitBtn idle_button pg))))
  | _ => put_submitBtn idle_button pg
  end.

Definition busy_effect (pg : Page) (b : bool) : list Effect :=
  match submitBtn pg with Some _ => [SetDisabled b] | None => [] end.

Definition event_effect (e : option unit) : list Effect :=
  match e with Some _ => [PreventDefault] | None => [] end.

(** ** Observations used by the further properties *)

(** What a classification must leave alone: the selection, the script
    variables of the camera, the device, and the elements of the intake
    surface and of the camera. *)
Definition beside_classification (w : World) :=
  (selectedFile w, cameraStream w, cameraCanvas w, window_handleFile w,
   streams w, dropzone (page w), cameraFeed (page w),
   cameraInterface (page w), btnScan (page w)).

(** Whether [handleFile] lets a file through its check of the extension. *)
Definition accepted (file : File) : bool :=
  match fileExtension (file_name file) with
  | Some ext => includes allowedExtensions ext
  | None => false
  end.

(** [p] keeps the property [P] of the world, on both exits. *)
Definition keeps (P : World -> Prop) (p : Proc) : Prop :=
  forall w, P w -> P (state_of (p w)).

(** Only files that passed the check are selected, and every request made
    so far is a POST to /predict with such a file in the field [file]. *)
Definition only_checked_files (w : World) : Prop :=
  (forall f, selectedFile w = Some f -> accepted f = true)
  /\ Forall (fun r => exists f, r = ("/predict", "file", f) /\ accepted f = true)
       (requested w).

(** What the camera shows and what it holds: the script variable, the
    video element and the camera interface. *)
Definition camera_parts (w : World) :=
  (cameraInterface (page w), cameraFeed (page w), cameraStream w).

(** The camera interface is displayed only while a stream is held; the
    video element shows the held stream and nothing else; and a stream is
    held only on a page with the video element, whose camera interface,
    if it has one, is displayed. *)
Definition camera_consistent (w : World) : Prop :=
  (cameraShown (page w) = true -> is_Some (cameraStream w))
  /\ (forall v, cameraFeed (page w) = Some v -> srcObject v = cameraStream w)
  /\ (is_Some (cameraStream w) ->
      is_Some (cameraFeed (page w))
      /\ (cameraInterface (page w) = None \/ cameraShown (page w) = true)).

(** [p] never throws. *)
Definition returns (p : Proc) : Prop := forall w, exists w', p w = Done w'.

(** The extension in the words of the specification, written without
    [split]: the text after the last dot of the name, the whole name when
    it has no dot; then lowercased. *)
Fixpoint after_last_dot (name : string) : string :=
  match name with
  | EmptyString => EmptyString
  | String c rest =>
      if has_dot rest then after_last_dot rest
      else if Ascii.eqb c "." then rest
      else name
  end.

Definition spec_extension (name : string) : string :=
  toLowerCase (after_last_dot name).

(** * Properties *)

(** ** Extensions of file names *)

Lemma split_nonempty sep s : split sep s <> [].
Proof.
  destruct s as [|c rest]; simpl; [discriminate|].
  destruct (Ascii.eqb c sep); [discriminate|].
  destruct (split sep rest); discriminate.
Qed.

Lemma fileExtension_is_Some name : is_Some (fileExtension name).
Proof.
  unfold fileExtension.
  destruct (last (split "." name)) eqn:E; simpl; [eauto|].
  apply last_None in E. now apply split_nonempty in E.
Qed.

Lemma split_no_separator s : has_dot s = false -> split "." s = [s].
Proof.
  unfold has_dot. induction s as [|c rest IH]; intros H; [reflexivity|].
  cbn [list_ascii_of_string existsb] in H. apply orb_false_iff in H as [Hc H].
  cbn [split]. rewrite Ascii.eqb_sym, Hc. now rewrite (IH H).
Qed.

Lemma split_at_separator stem rest :
  split "." (stem +:+ "." +:+ rest) = (split "." stem ++ split "." rest)%list.
Proof.
  induction stem as [|c stem IH]; simpl; [reflexivity|].
  rewrite IH. destruct (Ascii.eqb c "."); [reflexivity|].
  pose proof (split_nonempty "." stem) as Hne.
  destruct (split "." stem); [contradiction|reflexivity].
Qed.

Lemma fileExtension_after_last_dot stem ext :
  has_dot ext = false ->
  fileExtension (stem +:+ "." +:+ ext) = Some (toLowerCase ext).
Proof.
  intros H. unfold fileExtension.
  rewrite split_at_separator, (split_no_separator _ H), last_snoc.
  reflexivity.
Qed.

Lemma fileExtension_without_dot name :
  has_dot name = false -> fileExtension name = Some (toLowerCase name).
Proof.
  intros H. unfold fileExtension. now rewrite (split_no_separator _ H).
Qed.

Lemma includes_allowed ext :
  includes allowedExtensions ext = true <->
  ext = "png" \/ ext = "jpg" \/ ext = "jpeg".
Proof.
  unfold includes, allowedExtensions; simpl.
  rewrite !orb_true_iff, !String.eqb_eq. intuition discriminate.
Qed.

(** ** Frames: what a handler leaves alone *)

Section Frames.
Context {A : Type} (f : World -> A).

Lemma preserves_skip : preserves f skip.
Proof. intros w. reflexivity. Qed.

Lemma preserves_throw : preserves f throw.
Proof. intros w. reflexivity. Qed.

Lemma preserves_lift g : (forall w, f (g w) = f w) -> preserves f (lift g).
Proof. intros H w. apply H. Qed.

Lemma preserves_and_then p q :
  preserves f p -> preserves f q -> preserves f (p ;;; q).
Proof.
  intros Hp Hq w. unfold and_then. specialize (Hp w).
  destruct (p w) as [w'|w']; simpl in *; [rewrite Hq|]; exact Hp.
Qed.

Lemma preserves_try_catch p h :
  preserves f p -> preserves f h -> preserves f (try_catch p h).
Proof.
  intros Hp Hh w. unfold try_catch. specialize (Hp w).
  destruct (p w) as [w'|w']; simpl in *; [|rewrite Hh]; exact Hp.
Qed.

Lemma preserves_try_finally p h :
  preserves f p -> preserves f h -> preserves f (try_finally p h).
Proof.
  intros Hp Hh w. unfold try_finally. specialize (Hp w).
  destruct (p w) as [w'|w']; simpl in *; rewrite Hh; exact Hp.
Qed.

Lemma preserves_try_catch_then p h k :
  preserves f p -> preserves f h -> preserves f k ->
  preserves f (try_catch_then p h k).
Proof.
  intros Hp Hh Hk w. unfold try_catch_then. specialize (Hp w).
  destruct (p w) as [w'|w']; simpl in *; [rewrite Hk|rewrite Hh]; exact Hp.
Qed.

Lemma preserves_then_task p q :
  preserves f p -> preserves f q -> preserves f (then_task p q).
Proof.
  intros Hp Hq w. unfold then_task. specialize (Hp w).
  destruct (p w) as [w'|w']; cbn [state_of] in *; now rewrite Hq.
Qed.

Lemma preserves_call_async p : preserves f p -> preserves f (call_async p).
Proof. intros Hp w. apply Hp. Qed.

Lemma preserves_write_unchecked {B} (get : Page -> option B) upd :
  (forall w, f (set_page upd w) = f w) ->
  preserves f (write_unchecked get upd).
Proof.
  intros H w. unfold write_unchecked.
  destruct (get (page w)); simpl; [apply H|reflexivity].
Qed.
End Frames.

Ltac break_match :=
  match goal with
  | |- context [match ?x with _ => _ end] => destruct x eqn:?
  end.

(** Splits a procedure along its combinators; what is left are the single
    writes, closed by [leaf]. *)
Ltac frame_step leaf :=
  lazymatch goal with
  | H : preserves ?f ?p |- preserves ?f ?p => exact H
  | |- forall _ : World, _ => intros ?
  | |- preserves _ skip => apply preserves_skip
  | |- preserves _ throw => apply preserves_throw
  | |- preserves _ (and_then _ _) => apply preserves_and_then
  | |- preserves _ (try_catch _ _) => apply preserves_try_catch
  | |- preserves _ (try_finally _ _) => apply preserves_try_finally
  | |- preserves _ (try_catch_then _ _ _) => apply preserves_try_catch_then
  | |- preserves _ (then_task _ _) => apply preserves_then_task
  | |- preserves _ (call_async _) => apply preserves_call_async
  | |- preserves _ (lift _) => apply preserves_lift; intros ?; leaf
  | |- preserves _ (write_unchecked _ _) =>
      apply preserves_write_unchecked; intros ?; leaf
  | |- preserves _ (fun _ => _) => intros ?
  | |- preserves _ _ => break_match
  | |- ?f (state_of (?p ?w)) = _ =>
      first [ reflexivity | assumption | break_match
            | let H := fresh in
              assert (H : preserves f p);
              [|rewrite (H w); first [reflexivity | assumption]]
            | leaf ]
  | |- _ = _ => first [ reflexivity | assumption | break_match | leaf ]
  end.

Ltac frame := repeat (frame_step ltac:(reflexivity)).

(** Runs a procedure on a world given by its fields. *)
Ltac exec :=
  cbv [and_then try_catch try_finally try_catch_then then_task call_async
       lift skip throw write_unchecked state_of reader_settles
       emit emit_all set_page set_selectedFile set_cameraStream
       set_cameraCanvas set_streams set_window_handleFile
       put_submitBtn put_uploadForm put_resultsPanel put_predictionText
       put_preview put_dropzone put_cameraFeed put_cameraInterface put_btnScan
       with_display with_srcObject with_disabled with_spinner with_button_text
       with_ht_display with_ht_textContent with_dz_text idle_button
       page selectedFile cameraStream cameraCanvas window_handleFile streams
       trace submitBtn uploadForm resultsPanel predictionText preview dropzone
       cameraFeed cameraInterface btnScan disabled spinner button_text
       dz_display dz_text ht_display ht_textContent srcObject videoWidth
       videoHeight fmap option_fmap option_map
       StaticUpload.classifyImage StaticUpload.showLoading
       StaticUpload.hideLoading StaticUpload.displayResults
       StaticUpload.apply_preview StaticUpload.reader_onload
       OtherUpload.classifyImage OtherUpload.showLoading
       OtherUpload.hideLoading OtherUpload.displayResults
       OtherUpload.reader_onload
       release_stream stop_all_tracks open_stream request_stream
       stream_settles play_settles draw_frame capture_failed
       StaticCamera.stopCamera StaticCamera.show_camera
       StaticCamera.start_failed StaticCamera.startCamera
       OtherCamera.stopCamera OtherCamera.show_camera
       OtherCamera.start_failed OtherCamera.startCamera
       stopCamera_of startCamera_of];
  rewrite <- ?app_assoc; cbn [app].

Lemma static_classifyImage_camera e net :
  preserves camera_view (StaticUpload.classifyImage e net).
Proof.
  unfold StaticUpload.classifyImage, StaticUpload.displayResults,
    StaticUpload.showLoading, StaticUpload.hideLoading. frame.
Qed.

Lemma static_classifyImage_selectedFile e net :
  preserves selectedFile (StaticUpload.classifyImage e net).
Proof.
  unfold StaticUpload.classifyImage, StaticUpload.displayResults,
    StaticUpload.showLoading, StaticUpload.hideLoading. frame.
Qed.

Lemma other_classifyImage_camera e net :
  preserves camera_view (OtherUpload.classifyImage e net).
Proof.
  unfold OtherUpload.classifyImage, OtherUpload.displayResults,
    OtherUpload.showLoading, OtherUpload.hideLoading. frame.
Qed.

Lemma static_handleFile_camera file flag rd net :
  preserves camera_view (StaticUpload.handleFile file flag rd net).
Proof.
  intros w. unfold StaticUpload.handleFile.
  repeat break_match; try reflexivity.
  revert w. unfold reader_settles, StaticUpload.reader_onload, StaticUpload.apply_preview.
  pose proof (static_classifyImage_camera None net).
  destruct rd; frame.
Qed.

Lemma other_handleFile_camera file rd :
  preserves camera_view (OtherUpload.handleFile file rd).
Proof.
  intros w. unfold OtherUpload.handleFile.
  repeat break_match; try reflexivity.
  revert w. unfold reader_settles, OtherUpload.reader_onload.
  destruct rd; frame.
Qed.

Lemma call_handleFile_camera s file flag rd net :
  preserves camera_view (call_handleFile s file flag rd net).
Proof.
  destruct s; [apply static_handleFile_camera|apply other_handleFile_camera].
Qed.

Lemma static_reader_onload_selectedFile auto net result :
  preserves selectedFile (StaticUpload.reader_onload auto net result).
Proof.
  pose proof (static_classifyImage_selectedFile None net).
  unfold StaticUpload.reader_onload, StaticUpload.apply_preview. frame.
Qed.

Lemma other_reader_onload_selectedFile file result :
  preserves selectedFile (OtherUpload.reader_onload file result).
Proof. unfold OtherUpload.reader_onload. frame. Qed.

Lemma static_handleFile_selects file ext flag rd net w :
  fileExtension (file_name file) = Some ext ->
  includes allowedExtensions ext = true ->
  selectedFile (state_of (StaticUpload.handleFile file flag rd net w)) = Some file.
Proof.
  intros Hext Hin. unfold StaticUpload.handleFile. rewrite Hext, Hin. simpl.
  unfold and_then at 1. unfold lift at 1.
  pose proof (static_reader_onload_selectedFile (default false flag) net) as Hon.
  assert (H : preserves selectedFile
                (lift (emit (ReadAsDataURL file)) ;;;
                 reader_settles rd (StaticUpload.reader_onload (default false flag) net))).
  { unfold reader_settles. destruct rd; frame. apply Hon. }
  now rewrite H.
Qed.

Lemma other_handleFile_selects file ext rd w :
  fileExtension (file_name file) = Some ext ->
  includes allowedExtensions ext = true ->
  selectedFile (state_of (OtherUpload.handleFile file rd w)) = Some file.
Proof.
  intros Hext Hin. unfold OtherUpload.handleFile. rewrite Hext, Hin. simpl.
  unfold and_then at 1. unfold lift at 1.
  assert (H : preserves selectedFile
                (lift (emit (ReadAsDataURL file)) ;;;
                 then_task
                   (write_unchecked submitBtn (put_submitBtn (with_disabled false)) ;;;
                    lift (emit (SetDisabled false)))
                   (reader_settles rd (OtherUpload.reader_onload file)))).
  { unfold reader_settles, OtherUpload.reader_onload. destruct rd; frame. }
  now rewrite H.
Qed.

(** ** The intake controller: [handleFile] *)

Lemma has_dot_String c rest :
  has_dot (String c rest) = Ascii.eqb "." c || has_dot rest.
Proof. reflexivity. Qed.

Lemma after_last_dot_without_dot name :
  has_dot name = false -> after_last_dot name = name.
Proof.
  destruct name as [|c rest]; [reflexivity|].
  rewrite has_dot_String. intros H. apply orb_false_iff in H as [Hc Hrest].
  cbn [after_last_dot]. rewrite Hrest, Ascii.eqb_sym, Hc. reflexivity.
Qed.

Lemma after_last_dot_splits name :
  has_dot name = true ->
  has_dot (after_last_dot name) = false
  /\ exists stem, name = stem +:+ "." +:+ after_last_dot name.
Proof.
  induction name as [|c rest IH]; [discriminate|].
  rewrite has_dot_String. intros H. cbn [after_last_dot].
  destruct (has_dot rest) eqn:Hrest.
  - destruct (IH eq_refl) as [Hno [stem Hstem]]. split; [exact Hno|].
    exists (String c stem).
    change (String c rest = String c (stem +:+ "." +:+ after_last_dot rest)).
    now rewrite <- Hstem.
  - rewrite orb_false_r in H. rewrite Ascii.eqb_sym, H.
    apply Ascii.eqb_eq in H as <-. split; [exact Hrest|].
    now exists EmptyString.
Qed.

(** The extension the code reads is the one the specification describes. *)
Lemma fileExtension_is_spec_extension name :
  fileExtension name = Some (spec_extension name).
Proof.
  unfold spec_extension. destruct (has_dot name) eqn:H.
  - destruct (after_last_dot_splits name H) as [Hno [stem Hstem]].
    rewrite Hstem at 1. now apply fileExtension_after_last_dot.
  - rewrite (after_last_dot_without_dot name H).
    now apply fileExtension_without_dot.
Qed.

(** C10.  The check of [handleFile] is taken on the lowercased text after
    the last dot of the name, the whole lowercased name when the name has
    no dot, and on nothing else: for every file, in both copies, the file
    becomes [selectedFile] when that text is one of png, jpg, jpeg, and
    otherwise the call only raises the alert and returns.  So [PHOTO.PNG]
    is accepted, and so are files named just [png], [jpg] or [jpeg]. *)
Theorem extension_is_lowercased_last_segment :
  (forall stem ext, has_dot ext = false ->
     fileExtension (stem +:+ "." +:+ ext) = Some (toLowerCase ext))
  /\ (forall name, has_dot name = false ->
        fileExtension name = Some (toLowerCase name))
  /\ (forall file flag rd net w,
        file_name file ∈ ["PHOTO.PNG"; "png"; "jpg"; "jpeg"] ->
        selectedFile (state_of (StaticUpload.handleFile file flag rd net w)) = Some file
        /\ selectedFile (state_of (OtherUpload.handleFile file rd w)) = Some file)
  /\ (forall file flag rd net w,
        let ext := spec_extension (file_name file) in
        (ext = "png" \/ ext = "jpg" \/ ext = "jpeg" ->
         selectedFile (state_of (StaticUpload.handleFile file flag rd net w))
         = Some file
         /\ selectedFile (state_of (OtherUpload.handleFile file rd w)) = Some file)
        /\ (~ (ext = "png" \/ ext = "jpg" \/ ext = "jpeg") ->
            StaticUpload.handleFile file flag rd net w
            = Done (emit (Alert invalid_type_msg) w)
            /\ OtherUpload.handleFile file rd w
               = Done (emit (Alert invalid_type_msg) w))).
Proof.
  split; [exact fileExtension_after_last_dot|].
  split; [exact fileExtension_without_dot|].
  split.
  { intros file flag rd net w Hname.
    assert (exists ext, fileExtension (file_name file) = Some ext
                        /\ includes allowedExtensions ext = true) as (ext & He & Hi).
    { repeat (apply elem_of_cons in Hname as [->|Hname]);
        [eexists; split; reflexivity ..|].
      now apply elem_of_nil in Hname. }
    split; [eapply static_handleFile_selects|eapply other_handleFile_selects];
      eassumption. }
  intros file flag rd net w ext.
  pose proof (fileExtension_is_spec_extension (file_name file)) as He.
  fold ext in He. split.
  - intros Hin. apply includes_allowed in Hin.
    split; [eapply static_handleFile_selects|eapply other_handleFile_selects];
      eassumption.
  - intros Hout.
    assert (Hin : includes allowedExtensions ext = false).
    { destruct (includes allowedExtensions ext) eqn:E; [|reflexivity].
      now apply includes_allowed in E. }
    unfold StaticUpload.handleFile, OtherUpload.handleFile.
    rewrite He, Hin. split; reflexivity.
Qed.

Lemma extension_is_lowercased_last_segment_witness :
  fileExtension ("holiday.snap" +:+ "." +:+ "JPeG") = Some "jpeg"
  /\ fileExtension "JPG" = Some "jpg"
  /\ selectedFile (state_of (StaticUpload.handleFile
        {| file_name := "PHOTO.PNG"; file_type := "image/png"; file_bits := [] |}
        None ReadFailed FetchRejected (fresh example_page)))
     = Some {| file_name := "PHOTO.PNG"; file_type := "image/png"; file_bits := [] |}
  /\ selectedFile (state_of (OtherUpload.handleFile
        {| file_name := "archive.tar.JPG"; file_type := ""; file_bits := [] |}
        ReadFailed (fresh example_page)))
     = Some {| file_name := "archive.tar.JPG"; file_type := ""; file_bits := [] |}
  /\ StaticUpload.handleFile
       {| file_name := "photo.png.exe"; file_type := ""; file_bits := [] |}
       (Some true) ReadFailed FetchRejected (fresh example_page)
     = Done (emit (Alert invalid_type_msg) (fresh example_page)).
Proof.
  destruct extension_is_lowercased_last_segment as (H1 & H2 & H3 & H4).
  split; [apply (H1 "holiday.snap" "JPeG"); reflexivity|].
  split; [apply (H2 "JPG"); reflexivity|].
  split.
  { apply (H3 {| file_name := "PHOTO.PNG"; file_type := "image/png"; file_bits := [] |}).
    constructor. }
  split.
  - apply (H4 {| file_name := "archive.tar.JPG"; file_type := ""; file_bits := [] |}
              None ReadFailed FetchRejected (fresh example_page)).
    right; left; reflexivity.
  - apply (H4 {| file_name := "photo.png.exe"; file_type := ""; file_bits := [] |}
              (Some true) ReadFailed FetchRejected (fresh example_page)).
    intros [H|[H|H]]; discriminate H.
Defined.

(** C3.  A file whose extension is not in the allow-set makes [handleFile]
    raise the alert "Invalid file type..." and return: in both copies the
    world after the call is the world before it with that one alert added
    to the trace, so the page, its mode, the submit button, the preview and
    the stored [selectedFile] are as they were. *)
Theorem handleFile_invalid_type_changes_nothing
    (file : File) (ext : string) (flag : option bool)
    (rd : ReadOutcome) (net : FetchOutcome) (w : World) :
  fileExtension (file_name file) = Some ext ->
  includes allowedExtensions ext = false ->
  forall o, o = StaticUpload.handleFile file flag rd net w
            \/ o = OtherUpload.handleFile file rd w ->
    o = Done (emit (Alert invalid_type_msg) w)
    /\ page (state_of o) = page w
    /\ selectedFile (state_of o) = selectedFile w
    /\ uiMode (page (state_of o)) = uiMode (page w)
    /\ trace (state_of o) = (trace w ++ [Alert invalid_type_msg])%list.
Proof.
  intros Hext Hin o Ho.
  assert (o = Done (emit (Alert invalid_type_msg) w)) as ->.
  { destruct Ho as [-> | ->];
      unfold StaticUpload.handleFile, OtherUpload.handleFile;
      now rewrite Hext, Hin. }
  repeat split.
Qed.

Lemma handleFile_invalid_type_changes_nothing_witness :
  selectedFile (state_of (StaticUpload.handleFile doc_pdf None
     (ReadLoaded "data:application/pdf;base64,AA") FetchRejected
     (photo_chosen StaticUploadJs))) = Some photo_png.
Proof.
  pose proof (handleFile_invalid_type_changes_nothing doc_pdf "pdf" None
    (ReadLoaded "data:application/pdf;base64,AA") FetchRejected
    (photo_chosen StaticUploadJs) eq_refl eq_refl _ (or_introl eq_refl))
    as (_ & _ & H & _).
  exact H.
Defined.

(** C7 as the second copy of the script has it: for [photo.png] the call
    and the reader complete, but the helper text is still displayed, now
    reading "File: photo.png", and the page is not in PreviewReady. *)
Lemma other_upload_keeps_helper_text :
  let w := loaded example_page (Some OtherUploadJs) in
  let o := OtherUpload.handleFile photo_png (ReadLoaded "data:image/png;base64,AA") w in
  fileExtension (file_name photo_png) = Some "png"
  /\ includes allowedExtensions "png" = true
  /\ o = Done (photo_chosen OtherUploadJs)
  /\ dropzone (page (state_of o)) ≫= dz_text
     = Some {| ht_display := ""; ht_textContent := "File: photo.png" |}
  /\ uiMode (page (state_of o)) <> PreviewReady.
Proof. vm_compute. repeat split; discriminate. Qed.

(** C7, amended.  For a file with an allowed extension, on a page that has
    the preview, the dropzone with its helper text and the submit button:
    once [handleFile] has returned and the reader's [onload] has applied
    the preview, the preview shows the decoded image, the submit button is
    enabled and the file is the selected one.  In [static/upload.js] the
    helper text is hidden as well, the page is in PreviewReady, and only
    then does [onload] go on to the classification when [autoClassify] was
    passed.  In the second copy the helper text is not hidden: it is
    overwritten with "File: " and the name. *)
Theorem handleFile_shows_preview_and_enables_submit
    (file : File) (ext result : string) (flag : option bool) (net : FetchOutcome)
    (w : World) (p : Preview) (z : Dropzone) (t : HelperText) (b : Button) :
  fileExtension (file_name file) = Some ext ->
  includes allowedExtensions ext = true ->
  preview (page w) = Some p ->
  dropzone (page w) = Some z ->
  dz_text z = Some t ->
  submitBtn (page w) = Some b ->
  (exists w2,
      StaticUpload.handleFile file flag (ReadLoaded result) net w
      = (if default false flag
         then call_async (StaticUpload.classifyImage None net)
         else skip) w2
      /\ uiMode (page w2) = PreviewReady
      /\ preview (page w2) = Some (shown_preview result)
      /\ dropzone (page w2)
         = Some {| dz_display := dz_display z;
                   dz_text := Some {| ht_display := "none";
                                      ht_textContent := ht_textContent t |} |}
      /\ submitBtn (page w2) = Some (with_disabled false b)
      /\ selectedFile w2 = Some file)
  /\ (exists w2,
        OtherUpload.handleFile file (ReadLoaded result) w = Done w2
        /\ preview (page w2) = Some (shown_preview result)
        /\ dropzone (page w2)
           = Some {| dz_display := dz_display z;
                     dz_text := Some {| ht_display := ht_display t;
                                        ht_textContent := "File: " +:+ file_name file |} |}
        /\ submitBtn (page w2) = Some (with_disabled false b)
        /\ selectedFile w2 = Some file).
Proof.
  intros Hext Hin Hp Hz Ht Hb.
  destruct w as [[sb uf rp pt pv dz cf ci bs] sf cs cc wh st tr].
  simpl in Hp, Hz, Hb. subst sb pv dz. destruct z as [zd zt]. simpl in Ht. subst zt.
  unfold StaticUpload.handleFile, OtherUpload.handleFile. rewrite Hext, Hin.
  split.
  - eexists. split.
    + destruct (default false flag); reflexivity.
    + repeat split.
  - eexists. split; [reflexivity|]. repeat split.
Qed.

Lemma handleFile_shows_preview_and_enables_submit_witness :
  exists w2,
    StaticUpload.handleFile photo_png None (ReadLoaded "data:image/png;base64,AA")
      FetchRejected (loaded example_page (Some StaticUploadJs)) = Done w2
    /\ uiMode (page w2) = PreviewReady.
Proof.
  destruct (handleFile_shows_preview_and_enables_submit photo_png "png"
              "data:image/png;base64,AA" None FetchRejected
              (loaded example_page (Some StaticUploadJs))
              _ _ _ _ eq_refl eq_refl eq_refl eq_refl eq_refl eq_refl)
    as [(w2 & Hrun & Hmode & _) _].
  exists w2. split; [exact Hrun|exact Hmode].
Defined.

(** ** The classification request: [classifyImage] *)

(** C5.  With no selected image, [classifyImage] raises the alert "Please
    select an image first." and returns: no request is issued, the busy
    indicator is not touched and the page is as it was.  ([static/upload.js]
    for any caller; the second copy for its caller, the submit event of the
    form.) *)
Theorem classifyImage_without_image_only_alerts
    (e : option unit) (net : FetchOutcome) (w : World) :
  selectedFile w = None ->
  forall o, o = StaticUpload.classifyImage e net w
            \/ o = OtherUpload.classifyImage (Some tt) net w ->
    exists es,
      o = Done (emit_all es w)
      /\ alerts es = [no_image_msg]
      /\ requests es = []
      /\ busy_writes es = []
      /\ page (state_of o) = page w
      /\ selectedFile (state_of o) = None.
Proof.
  intros Hsel o Ho.
  destruct w as [pg sf cs cc wh st tr]. simpl in Hsel. subst sf.
  destruct Ho as [-> | ->].
  - destruct e.
    + exists [PreventDefault; Alert no_image_msg].
      unfold StaticUpload.classifyImage, and_then, lift, emit, emit_all; simpl.
      rewrite <- app_assoc. repeat split.
    + exists [Alert no_image_msg]. repeat split.
  - exists [PreventDefault; Alert no_image_msg].
    unfold OtherUpload.classifyImage, and_then, lift, emit, emit_all; simpl.
    rewrite <- app_assoc. repeat split.
Qed.

Lemma classifyImage_without_image_only_alerts_witness :
  exists es,
    StaticUpload.classifyImage (Some tt) hdpe_response
      (loaded example_page (Some StaticUploadJs))
    = Done (emit_all es (loaded example_page (Some StaticUploadJs)))
    /\ requests es = [].
Proof.
  destruct (classifyImage_without_image_only_alerts (Some tt) hdpe_response
              (loaded example_page (Some StaticUploadJs)) eq_refl _
              (or_introl eq_refl)) as (es & Ho & _ & Hreq & _).
  exists es. split; [exact Ho|exact Hreq].
Defined.

Lemma static_classifyImage_settles e net w file :
  selectedFile w = Some file ->
  StaticUpload.classifyImage e net w
  = Done (emit_all (event_effect e ++ busy_effect (page w) true
                    ++ [FetchPost "/predict" "file" file]
                    ++ verdict_effects (spec_verdict net)
                    ++ busy_effect (page w) false)
            (set_page (settled_page (spec_verdict net)) w)).
Proof.
  intros Hsel.
  destruct w as [[sb uf rp pt pv dz cf ci bs] sf cs cc wh st tr].
  cbn [selectedFile] in Hsel. subst sf.
  unfold busy_effect, event_effect, StaticUpload.classifyImage,
    StaticUpload.displayResults, spec_verdict.
  destruct net as [|ok [|data]].
  1, 2: destruct e as [[]|], sb as [[d [s|] [t|]]|];
    cbv [verdict_effects settled_page]; exec; reflexivity.
  destruct (get_prop data "success") as [sv|] eqn:Hs.
  - assert (exists ev lv, get_prop data "error" = Some ev
                          /\ get_prop data "prediction" = Some lv)
      as (ev & lv & -> & ->).
    { destruct data as [[]|]; try discriminate; cbn [get_prop]; eauto. }
    cbn [fmap option_fmap option_map].
    destruct ok, (truthy sv), e as [[]|], sb as [[d [s|] [t|]]|], pt;
      cbv [verdict_effects settled_page andb]; exec; reflexivity.
  - assert (get_prop data "error" = None) as ->.
    { destruct data as [[]|]; try discriminate; reflexivity. }
    cbn [fmap option_fmap option_map].
    destruct ok, e as [[]|], sb as [[d [s|] [t|]]|];
      cbv [verdict_effects settled_page]; exec; reflexivity.
Qed.

Lemma busy_writes_app es1 es2 :
  busy_writes (es1 ++ es2) = (busy_writes es1 ++ busy_writes es2)%list.
Proof. apply omap_app. Qed.

Lemma verdict_effects_not_busy v : busy_writes (verdict_effects v) = [].
Proof. destruct v; reflexivity. Qed.

Lemma event_effect_not_busy e : busy_writes (event_effect e) = [].
Proof. destruct e; reflexivity. Qed.

Lemma settled_page_submitBtn v pg :
  submitBtn (settled_page v pg) = idle_button <$> submitBtn pg.
Proof. destruct v; reflexivity. Qed.

(** C4.  When [classifyImage] runs with a selected image and the submit
    button exists, then whatever the network answers (a success payload, a
    failure payload, a body that is not JSON, a rejected request) the
    function returns, and the writes of the button's [disabled] in its trace
    are exactly two: [true] before the request and [false] as the last
    thing it does.  [showLoading] leaves the button disabled, the spinner
    displayed and the text "Classifying..."; at the end the button is
    enabled again, the spinner hidden and the text "Classify Plastic". *)
Theorem classifyImage_reverts_busy_indicator_once
    (e : option unit) (net : FetchOutcome) (w : World) (file : File) (b : Button) :
  selectedFile w = Some file ->
  submitBtn (page w) = Some b ->
  exists w' before after,
    StaticUpload.classifyImage e net w = Done w'
    /\ trace w' = (trace w ++ before
                   ++ [SetDisabled true; FetchPost "/predict" "file" file]
                   ++ after ++ [SetDisabled false])%list
    /\ busy_writes before = []
    /\ busy_writes after = []
    /\ busy_writes (before ++ [SetDisabled true; FetchPost "/predict" "file" file]
                    ++ after ++ [SetDisabled false]) = [true; false]
    /\ submitBtn (page (state_of (StaticUpload.showLoading w)))
       = Some {| disabled := true;
                 spinner := (fun _ => "inline-block") <$> spinner b;
                 button_text := (fun _ => "Classifying...") <$> button_text b |}
    /\ submitBtn (page w')
       = Some {| disabled := false;
                 spinner := (fun _ => "none") <$> spinner b;
                 button_text := (fun _ => "Classify Plastic") <$> button_text b |}.
Proof.
  intros Hsel Hb.
  exists (state_of (StaticUpload.classifyImage e net w)),
    (event_effect e), (verdict_effects (spec_verdict net)).
  rewrite (static_classifyImage_settles e net w file Hsel).
  unfold busy_effect. rewrite Hb.
  split; [reflexivity|].
  split; [reflexivity|].
  split; [apply event_effect_not_busy|].
  split; [apply verdict_effects_not_busy|].
  split.
  { rewrite !busy_writes_app, event_effect_not_busy, verdict_effects_not_busy.
    reflexivity. }
  split.
  - unfold StaticUpload.showLoading. rewrite Hb.
    cbn [state_of page set_page emit submitBtn put_submitBtn].
    rewrite Hb. reflexivity.
  - cbn [state_of emit_all set_page page].
    rewrite settled_page_submitBtn, Hb. reflexivity.
Qed.

Lemma classifyImage_reverts_busy_indicator_once_witness :
  exists w' before after,
    StaticUpload.classifyImage (Some tt) FetchRejected (photo_chosen StaticUploadJs)
    = Done w'
    /\ busy_writes (before ++ [SetDisabled true; FetchPost "/predict" "file" photo_png]
                    ++ after ++ [SetDisabled false]) = [true; false].
Proof.
  destruct (classifyImage_reverts_busy_indicator_once (Some tt) FetchRejected
              (photo_chosen StaticUploadJs) photo_png _ eq_refl eq_refl)
    as (w' & before & after & Hrun & _ & _ & _ & Hbusy & _ & _).
  exists w', before, after. split; [exact Hrun|exact Hbusy].
Defined.

Lemma uiMode_idle_button pg :
  uiMode pg = PreviewReady ->
  uiMode (put_submitBtn idle_button pg) = PreviewReady.
Proof.
  unfold uiMode. destruct (previewReady pg) eqn:Hpr; [intros _|].
  - assert (previewReady (put_submitBtn idle_button pg) = true) as ->; [|reflexivity].
    unfold previewReady in *.
    destruct pg as [[[d s t]|] uf rp pt [[bg [] ah]|] [[dd [[hd ht]|]]|] cf ci bs];
      try discriminate; cbn in *.
    destruct (String.eqb hd "none"); [reflexivity|discriminate].
  - destruct (resultShown pg), (cameraShown pg); discriminate.
Qed.

Lemma uiMode_displayed label pg :
  is_Some (resultsPanel pg) ->
  uiMode (settled_page (Classified label) pg) = ResultShown.
Proof.
  intros [d Hd]. destruct pg as [sb uf rp pt pv dz cf ci bs].
  cbn in Hd. subst rp. unfold uiMode, previewReady.
  destruct pv, sb, dz; reflexivity.
Qed.

(** C6.  [classifyImage] on a selected image issues exactly one request
    and then does one of three things, by the verdict of section 4.3.
    The verdict is a classification exactly when the response was ok and
    the payload's [success] is truthy: then no alert is raised, the label
    text is the payload's [prediction], the form is hidden, the results
    panel shown and the preview cleared (mode ResultShown).  Otherwise one
    alert is raised: "Classification Error: " followed by the payload's
    [error] when the payload could be read (or by "Unknown error" when
    that is missing or empty), the network message when the request was
    rejected or the body could not be read.  In these cases nothing on the
    page changes but the submit button going back to idle, so a page in
    PreviewReady stays there. *)
Theorem classifyImage_outcome_by_verdict
    (e : option unit) (net : FetchOutcome) (w : World) (file : File) :
  selectedFile w = Some file ->
  exists w' es,
    StaticUpload.classifyImage e net w = Done w'
    /\ trace w' = (trace w ++ es)%list
    /\ requests es = [("/predict", "file", file)]
    /\ ((exists label, spec_verdict net = Classified label)
        <-> exists data s, net = FetchResponse true (JsonParsed data)
                           /\ get_prop data "success" = Some s
                           /\ truthy s = true)
    /\ match spec_verdict net with
       | Classified label =>
           alerts es = []
           /\ get_prop (match net with
                        | FetchResponse _ (JsonParsed data) => data
                        | _ => PScalar JNull
                        end) "prediction" = Some label
           /\ predictionText (page w')
              = (fun _ => domString label) <$> predictionText (page w)
           /\ uploadForm (page w') = (fun _ => "none") <$> uploadForm (page w)
           /\ resultsPanel (page w') = (fun _ => "flex") <$> resultsPanel (page w)
           /\ preview (page w') = (fun _ => cleared_preview) <$> preview (page w)
           /\ (is_Some (resultsPanel (page w)) -> uiMode (page w') = ResultShown)
       | ApplicationError err =>
           alerts es = [classification_error_msg err]
           /\ (forall msg, err = JStr msg -> msg <> "" ->
                 classification_error_msg err = "Classification Error: " +:+ msg)
           /\ page w' = put_submitBtn idle_button (page w)
           /\ (uiMode (page w) = PreviewReady -> uiMode (page w') = PreviewReady)
       | TransportError =>
           alerts es = [network_error_msg]
           /\ page w' = put_submitBtn idle_button (page w)
           /\ (uiMode (page w) = PreviewReady -> uiMode (page w') = PreviewReady)
       end.
Proof.
  intros Hsel.
  eexists _, _. split; [apply (static_classifyImage_settles e net w file Hsel)|].
  split; [reflexivity|].
  split.
  { unfold busy_effect.
    destruct e, (submitBtn (page w)), (spec_verdict net); reflexivity. }
  split.
  { unfold spec_verdict. split.
    - intros [label Hv]. destruct net as [|ok [|data]]; try discriminate.
      destruct (get_prop data "success") as [s|] eqn:Hs; [|discriminate].
      destruct (get_prop data "error"); [|discriminate].
      destruct (get_prop data "prediction"); [|discriminate].
      destruct ok; [|discriminate]. cbn in Hv.
      destruct (truthy s) eqn:Ht; [|discriminate]. eauto.
    - intros (data & s & -> & Hs & Ht). rewrite Hs.
      destruct data as [[]|]; try discriminate; cbn [get_prop];
        rewrite Ht; eauto. }
  destruct (spec_verdict net) as [label|err|] eqn:Hv;
    cbn [page emit_all set_page settled_page].
  - unfold busy_effect.
    split; [destruct e, (submitBtn (page w)); reflexivity|].
    split.
    { unfold spec_verdict in Hv. destruct net as [|ok [|data]]; try discriminate.
      destruct (get_prop data "success") as [sv|]; [|discriminate].
      destruct (get_prop data "error"); [|discriminate].
      destruct (get_prop data "prediction"); [|discriminate].
      destruct (ok && truthy sv); congruence. }
    repeat split. apply uiMode_displayed.
  - unfold busy_effect.
    split; [destruct e, (submitBtn (page w)); reflexivity|].
    split.
    { intros msg -> Hne. unfold classification_error_msg, js_or. cbn.
      destruct (String.eqb_spec msg ""); [contradiction|reflexivity]. }
    split; [reflexivity|apply uiMode_idle_button].
  - unfold busy_effect.
    split; [destruct e, (submitBtn (page w)); reflexivity|].
    split; [reflexivity|apply uiMode_idle_button].
Qed.

Lemma classifyImage_outcome_by_verdict_witness :
  (exists w', StaticUpload.classifyImage (Some tt) hdpe_response
                (photo_chosen StaticUploadJs) = Done w'
              /\ predictionText (page w') = Some "HDPE"
              /\ uiMode (page w') = ResultShown)
  /\ (exists w' es, StaticUpload.classifyImage (Some tt) unavailable_response
                      (photo_chosen StaticUploadJs) = Done w'
                    /\ trace w' = (trace (photo_chosen StaticUploadJs) ++ es)%list
                    /\ alerts es = ["Classification Error: model unavailable"]
                    /\ uiMode (page w') = PreviewReady).
Proof.
  split.
  - destruct (classifyImage_outcome_by_verdict (Some tt) hdpe_response
                (photo_chosen StaticUploadJs) photo_png eq_refl)
      as (w' & es & Hrun & _ & _ & _ & Hv).
    exists w'. split; [exact Hrun|].
    change (spec_verdict hdpe_response) with (Classified (JStr "HDPE")) in Hv.
    destruct Hv as (_ & _ & Hlabel & _ & _ & _ & Hmode).
    split; [exact Hlabel|]. apply Hmode. eexists. reflexivity.
  - destruct (classifyImage_outcome_by_verdict (Some tt) unavailable_response
                (photo_chosen StaticUploadJs) photo_png eq_refl)
      as (w' & es & Hrun & Htr & _ & _ & Hv).
    exists w', es. split; [exact Hrun|]. split; [exact Htr|].
    change (spec_verdict unavailable_response)
      with (ApplicationError (JStr "model unavailable")) in Hv.
    destruct Hv as (Hal & _ & _ & Hmode).
    split; [exact Hal|]. apply Hmode. reflexivity.
Defined.

(** ** The capture session: [stopCamera] *)

Lemma stopCamera_of_split cam :
  exists ui, stopCamera_of cam = release_stream ;;; ui
             /\ preserves session_view ui /\ preserves trace ui.
Proof.
  destruct cam; eexists; (split; [reflexivity|]); split; frame.
Qed.

Lemma stopCamera_session cam w :
  session_view (state_of (stopCamera_of cam w))
  = session_view (state_of (release_stream w)).
Proof.
  destruct (stopCamera_of_split cam) as (ui & -> & Hui & _).
  unfold and_then, release_stream.
  destruct (cameraStream w); simpl; apply Hui.
Qed.

Lemma all_stopped (tracks : list bool) : live ((fun _ => false) <$> tracks) = false.
Proof. induction tracks; simpl; auto. Qed.

Lemma stop_all_tracks_dead id w :
  live (default [] (streams (stop_all_tracks id w) !! id)) = false.
Proof.
  unfold stop_all_tracks. cbn [streams emit_all set_streams].
  rewrite list_lookup_alter_eq. destruct (streams w !! id); simpl.
  - apply all_stopped.
  - reflexivity.
Qed.

Lemma stop_all_tracks_other id i w :
  i <> id -> streams (stop_all_tracks id w) !! i = streams w !! i.
Proof.
  intros Hne. unfold stop_all_tracks. cbn [streams emit_all set_streams].
  now apply list_lookup_alter_ne.
Qed.

Lemma stopCamera_tears_down cam w id :
  cameraStream w = Some id -> torn_down id (state_of (stopCamera_of cam w)).
Proof.
  intros Hcs. pose proof (stopCamera_session cam w) as Hs.
  unfold session_view, release_stream in Hs. rewrite Hcs in Hs.
  cbn [state_of] in Hs. injection Hs as Hst Hc.
  split; [exact Hc|]. rewrite Hst. apply stop_all_tracks_dead.
Qed.

Lemma uiMode_unless_camera pg pg' :
  previewReady pg' = previewReady pg ->
  resultShown pg' = resultShown pg ->
  cameraShown pg' = cameraShown pg \/ cameraShown pg' = false ->
  uiMode pg <> CameraActive ->
  uiMode pg' = uiMode pg.
Proof.
  unfold uiMode. intros -> -> Hcam.
  destruct (previewReady pg), (resultShown pg); try reflexivity.
  destruct Hcam as [-> | ->]; [reflexivity|].
  destruct (cameraShown pg); congruence.
Qed.

(** C8.  [stopCamera] is idempotent, in both copies.  With no stream held
    it performs no device operation: the streams are as they were and
    nothing is added to the trace.  On a page that is not in CameraActive
    it leaves the mode as it is.  Called a second time right after a first
    call it leaves the world of the first call and ends as the first call
    ended. *)
Theorem stopCamera_idempotent (cam : CameraScript) (w : World) :
  (cameraStream w = None ->
     streams (state_of (stopCamera_of cam w)) = streams w
     /\ trace (state_of (stopCamera_of cam w)) = trace w)
  /\ (uiMode (page w) <> CameraActive ->
        uiMode (page (state_of (stopCamera_of cam w))) = uiMode (page w))
  /\ state_of (stopCamera_of cam (state_of (stopCamera_of cam w)))
     = state_of (stopCamera_of cam w)
  /\ stopCamera_of cam (state_of (stopCamera_of cam w)) = stopCamera_of cam w.
Proof.
  split; [|split].
  - intros Hcs.
    destruct (stopCamera_of_split cam) as (ui & -> & Hui & Htr).
    unfold and_then, release_stream. rewrite Hcs.
    split; [|apply Htr].
    specialize (Hui w). unfold session_view in Hui. congruence.
  - intros Hmode.
    destruct w as [[sb uf rp pt pv dz cf ci bs] sf cs cc wh st tr].
    cbn [page] in *.
    destruct cam, cs, cf, ci, dz as [[dd dt]|], bs; exec; try reflexivity;
      (apply uiMode_unless_camera;
       [reflexivity | reflexivity
       | first [left; reflexivity | right; reflexivity] | exact Hmode]).
  - destruct w as [[sb uf rp pt pv dz cf ci bs] sf cs cc wh st tr].
    destruct cam, cs, cf, ci, dz, bs; exec; split; reflexivity.
Qed.

Lemma stopCamera_idempotent_witness :
  let w := photo_chosen StaticUploadJs in
  trace (state_of (stopCamera_of StaticCameraJs w)) = trace w
  /\ uiMode (page (state_of (stopCamera_of StaticCameraJs w))) = uiMode (page w).
Proof.
  destruct (stopCamera_idempotent StaticCameraJs (photo_chosen StaticUploadJs))
    as (Hnone & Hmode & _).
  split.
  - destruct (Hnone eq_refl) as [_ H]. exact H.
  - refine (Hmode _). vm_compute. discriminate.
Defined.

(** ** The capture session: [capturePhoto] *)

Lemma pass_to_handleFile_camera flag env bits :
  preserves camera_view (pass_to_handleFile flag env bits).
Proof.
  intros w. unfold pass_to_handleFile.
  destruct (window_handleFile w); [apply call_handleFile_camera|reflexivity].
Qed.

Lemma torn_down_camera_view id w w' :
  camera_view w' = camera_view w -> torn_down id w -> torn_down id w'.
Proof.
  unfold camera_view, torn_down. intros Hv [Hc Hl].
  injection Hv as Hst Hcs _. now rewrite Hst, Hcs.
Qed.

Lemma draw_frame_keeps_session env v :
  preserves (fun w => (page w, session_view w)) (draw_frame env v).
Proof. unfold draw_frame. frame. Qed.

Lemma capturePhoto_of_unfold cam env w id v :
  cameraStream w = Some id ->
  cameraFeed (page w) = Some v ->
  capturePhoto_of cam env w
  = try_catch_then (draw_frame env v) capture_failed
      (match blob env with
       | Some bits =>
           stopCamera_of cam ;;; pass_to_handleFile (capture_flag cam) env bits
       | None => lift (emit (Alert encode_failed_msg))
       end) w.
Proof.
  intros Hcs Hcf.
  destruct cam; cbn [capturePhoto_of];
    unfold StaticCamera.capturePhoto, OtherCamera.capturePhoto;
    rewrite Hcs, Hcf; reflexivity.
Qed.

(** C1 on the path of a null blob: the camera is on with one live track,
    the encoder yields no blob; [capturePhoto] alerts and leaves the stream
    held, its track live, and stops nothing. *)
Lemma null_blob_leaves_session_running :
  let after cam :=
    state_of (capturePhoto_of cam null_blob_capture (camera_on cam StaticUploadJs)) in
  (cameraStream (camera_on StaticCameraJs StaticUploadJs) = Some 0
   /\ cameraStream (after StaticCameraJs) = Some 0
   /\ live_streams (after StaticCameraJs) = [0]
   /\ track_stops (trace (after StaticCameraJs)) = []
   /\ alerts (trace (after StaticCameraJs)) = [encode_failed_msg]
   /\ uiMode (page (after StaticCameraJs)) = CameraActive)
  /\ (cameraStream (camera_on OtherCameraJs StaticUploadJs) = Some 0
      /\ cameraStream (after OtherCameraJs) = Some 0
      /\ live_streams (after OtherCameraJs) = [0]
      /\ track_stops (trace (after OtherCameraJs)) = []
      /\ alerts (trace (after OtherCameraJs)) = [encode_failed_msg]
      /\ uiMode (page (after OtherCameraJs)) = CameraActive).
Proof. vm_compute. repeat split. Qed.

(** C1, amended.  [capturePhoto] with a stream held and the video element
    present tears the session down exactly when the frame was drawn and
    the encoder yielded a blob: then [stopCamera] runs first, after it the
    stream handle is cleared and no track of the stream is live, and only
    then is the captured file handed to [window.handleFile]; the session is
    still torn down when the capture is over.  When the encoder yields a
    null blob, or drawing the frame throws, the function only raises its
    alert: the page is as it was and the stream stays held with its tracks
    as they were. *)
Theorem capturePhoto_tears_down_after_encoding
    (cam : CameraScript) (env : CaptureEnv) (w : World) (id : nat) (v : Video) :
  cameraStream w = Some id ->
  cameraFeed (page w) = Some v ->
  let w0 := state_of (draw_frame env v w) in
  let o := capturePhoto_of cam env w in
  match draw_ok env, blob env with
  | true, Some bits =>
      o = (stopCamera_of cam ;;; pass_to_handleFile (capture_flag cam) env bits) w0
      /\ torn_down id (state_of (stopCamera_of cam w0))
      /\ torn_down id (state_of o)
  | true, None =>
      o = Done (emit (Alert encode_failed_msg) w0)
      /\ page (state_of o) = page w
      /\ cameraStream (state_of o) = Some id
      /\ streams (state_of o) = streams w
      /\ track_stops (trace (state_of o)) = track_stops (trace w)
  | false, _ =>
      o = capture_failed w0
      /\ alerts (trace (state_of o))
         = (alerts (trace w) ++ [capture_failed_msg])%list
      /\ page (state_of o) = page w
      /\ cameraStream (state_of o) = Some id
      /\ streams (state_of o) = streams w
      /\ track_stops (trace (state_of o)) = track_stops (trace w)
  end.
Proof.
  intros Hcs Hcf w0 o. subst o.
  rewrite (capturePhoto_of_unfold cam env w id v Hcs Hcf).
  pose proof (draw_frame_keeps_session env v w) as Hkeep.
  fold w0 in Hkeep. unfold session_view in Hkeep.
  injection Hkeep as Hpg Hst Hcs0. rewrite Hcs in Hcs0.
  unfold try_catch_then. subst w0.
  unfold draw_frame in *. destruct (draw_ok env) eqn:Hdraw.
  - change ((lift (set_cameraCanvas (videoWidth v, videoHeight v)) ;;;
             lift (emit (DrawImage (videoWidth v) (videoHeight v))) ;;;
             lift (emit (ToBlob "image/jpeg" 9))) w)
      with (Done (emit (ToBlob "image/jpeg" 9)
                   (emit (DrawImage (videoWidth v) (videoHeight v))
                     (set_cameraCanvas (videoWidth v, videoHeight v) w)))) in *.
    cbn [state_of] in *.
    set (w0 := emit _ _) in *.
    destruct (blob env) as [bits|] eqn:Hblob.
    + pose proof (stopCamera_tears_down cam w0 id Hcs0) as Hdown.
      split; [reflexivity|]. split; [exact Hdown|].
      unfold and_then.
      destruct (stopCamera_of cam w0) as [w1|w1]; cbn [state_of] in *;
        [|exact Hdown].
      refine (torn_down_camera_view id w1 _ _ Hdown).
      apply pass_to_handleFile_camera.
    + split; [reflexivity|]. repeat split; try assumption.
      subst w0. cbn [lift state_of trace emit set_cameraCanvas].
      unfold track_stops. rewrite !omap_app. cbn. now rewrite !app_nil_r.
  - change ((lift (set_cameraCanvas (videoWidth v, videoHeight v)) ;;;
             throw ;;; lift (emit (ToBlob "image/jpeg" 9))) w)
      with (Threw (set_cameraCanvas (videoWidth v, videoHeight v) w)) in *.
    cbn [state_of] in *.
    set (w0 := set_cameraCanvas _ _) in *.
    split; [reflexivity|]. repeat split; try assumption.
    + subst w0. cbn. unfold alerts. rewrite !omap_app. cbn.
      now rewrite app_nil_r.
    + subst w0. cbn. unfold track_stops. rewrite !omap_app. cbn.
      now rewrite !app_nil_r.
Qed.

Lemma capturePhoto_tears_down_after_encoding_witness :
  torn_down 0 (state_of (capturePhoto_of StaticCameraJs good_capture
                           (camera_on StaticCameraJs StaticUploadJs))).
Proof.
  pose proof (capturePhoto_tears_down_after_encoding StaticCameraJs good_capture
                (camera_on StaticCameraJs StaticUploadJs) 0 _ eq_refl eq_refl)
    as H.
  cbn [draw_ok blob good_capture] in H.
  destruct H as (_ & _ & H). exact H.
Defined.

(** ** The capture session: one live stream *)

Lemma live_at_new st n i :
  live_at (st ++ [replicate n true]) i = true ->
  live_at st i = true \/ i = length st.
Proof.
  unfold live_at. intros H.
  destruct (decide (i < length st)) as [Hlt|Hge].
  - left. now rewrite lookup_app_l in H.
  - destruct (decide (i = length st)) as [->|Hne]; [now right|].
    rewrite lookup_ge_None_2 in H; [discriminate|].
    rewrite length_app. simpl. lia.
Qed.

Lemma live_at_stopped st id i :
  live_at (alter (fmap (fun _ => false)) id st) i = true ->
  live_at st i = true /\ i <> id.
Proof.
  unfold live_at. intros H.
  destruct (decide (i = id)) as [->|Hne].
  - rewrite list_lookup_alter_eq in H.
    destruct (st !! id); simpl in H; [|discriminate].
    now rewrite all_stopped in H.
  - now rewrite list_lookup_alter_ne in H.
Qed.

Lemma inv_of_stopped st cs clickable :
  (forall i, live_at st i = true -> cs = Some i) ->
  inv_of (match cs with
          | Some id => alter (fmap (fun _ => false)) id st
          | None => st
          end) None clickable.
Proof.
  intros H. split; [|intros [? ?]; discriminate].
  intros i Hi. destruct cs as [id|].
  - apply live_at_stopped in Hi as [Hi Hne]. apply H in Hi. congruence.
  - apply H in Hi. discriminate.
Qed.

Lemma inv_of_started st n :
  (forall i, live_at st i = true -> @None nat = Some i) ->
  inv_of (st ++ [replicate n true]) (Some (length st)) false.
Proof.
  intros H. split; [|reflexivity].
  intros i Hi. apply live_at_new in Hi as [Hi| ->]; [|reflexivity].
  apply H in Hi. discriminate.
Qed.

Lemma inv_of_start_undone st n clickable :
  (forall i, live_at st i = true -> @None nat = Some i) ->
  inv_of (alter (fmap (fun _ => false)) (length st) (st ++ [replicate n true]))
    None clickable.
Proof.
  intros H.
  apply (inv_of_stopped (st ++ [replicate n true]) (Some (length st))).
  intros i Hi. apply live_at_new in Hi as [Hi| ->]; [|reflexivity].
  apply H in Hi. discriminate.
Qed.

Lemma session_inv_camera_view w w' :
  camera_view w' = camera_view w -> session_inv w -> session_inv w'.
Proof.
  unfold camera_view, session_inv, scan_clickable.
  intros Hv. injection Hv as -> -> ->. trivial.
Qed.

Lemma stopCamera_restores_inv cam w :
  (forall i, is_live w i -> cameraStream w = Some i) ->
  session_inv (state_of (stopCamera_of cam w)).
Proof.
  intros H. pose proof (stopCamera_session cam w) as Hs.
  unfold session_view in Hs. injection Hs as Hst Hcs.
  unfold session_inv. rewrite Hst, Hcs.
  unfold release_stream.
  pose proof (inv_of_stopped (streams w) (cameraStream w)
                (scan_clickable (page (state_of (stopCamera_of cam w)))) H) as Hinv.
  destruct (cameraStream w) eqn:E;
    cbn [state_of streams cameraStream set_cameraStream stop_all_tracks
         emit_all set_streams]; rewrite ?E; exact Hinv.
Qed.

Lemma startCamera_keeps_inv cam gum play_ok w :
  session_inv w -> cameraStream w = None ->
  session_inv (state_of (startCamera_of cam gum play_ok w)).
Proof.
  intros Hinv Hcs.
  destruct w as [[sb uf rp pt pv dz cf ci bs] sf cs cc wh st tr].
  cbn [cameraStream] in Hcs. subst cs.
  pose proof Hinv as [Hlive _]. cbn [streams cameraStream] in Hlive.
  destruct cam, gum as [|n], play_ok, cf, ci, dz, bs; exec;
    first [ exact Hinv
          | exact (inv_of_stopped st None _ Hlive)
          | split; [exact (proj1 (inv_of_started st n Hlive)) | reflexivity ]
          | exact (inv_of_start_undone st n _ Hlive) ].
Qed.

Lemma loaded_inv pg upload : session_inv (loaded pg upload).
Proof.
  assert (H : session_inv (fresh pg)).
  { split; [|intros [? ?]; discriminate].
    intros i Hi. unfold live_at in Hi. cbn in Hi. discriminate. }
  destruct upload as [s|]; [|exact H].
  refine (session_inv_camera_view (fresh pg) _ _ H).
  unfold loaded, initUpload.
  assert (Hp : preserves camera_view
                 (lift (set_window_handleFile (Some s)) ;;;
                  lift (set_page (put_uploadForm "block")) ;;;
                  lift (set_page (put_resultsPanel "none")))) by frame.
  apply Hp.
Qed.

Lemma step_keeps_inv cam w ev : session_inv w -> session_inv (step cam w ev).
Proof.
  intros Hinv. unfold step, handle. destruct ev as [gum ok|env|file rd|net].
  - destruct (scan_clickable (page w)) eqn:Hclick; [|exact Hinv].
    apply startCamera_keeps_inv; [exact Hinv|].
    destruct Hinv as [_ Hscan]. destruct (cameraStream w); [|reflexivity].
    rewrite Hscan in Hclick by eauto. discriminate.
  - destruct (cameraStream w) as [id|] eqn:Hcs.
    2:{ destruct cam; cbn; unfold StaticCamera.capturePhoto, OtherCamera.capturePhoto;
        rewrite Hcs; exact Hinv. }
    destruct (cameraFeed (page w)) as [v|] eqn:Hcf.
    2:{ destruct cam; cbn; unfold StaticCamera.capturePhoto, OtherCamera.capturePhoto;
        rewrite Hcs, Hcf; exact Hinv. }
    rewrite (capturePhoto_of_unfold cam env w id v Hcs Hcf).
    unfold try_catch_then.
    assert (Hdf : preserves camera_view (draw_frame env v))
      by (unfold draw_frame; frame).
    specialize (Hdf w).
    apply (session_inv_camera_view _ _ Hdf) in Hinv.
    destruct (draw_frame env v w) as [w0|w0]; cbn [state_of] in Hinv.
    + destruct (blob env) as [bits|].
      * unfold and_then.
        pose proof (stopCamera_restores_inv cam w0 (proj1 Hinv)) as Hstop.
        destruct (stopCamera_of cam w0) as [w1|w1]; cbn [state_of] in *;
          [|exact Hstop].
        refine (session_inv_camera_view w1 _ _ Hstop).
        apply pass_to_handleFile_camera.
      * exact Hinv.
    + exact Hinv.
  - destruct (window_handleFile w) as [s|]; [|exact Hinv].
    refine (session_inv_camera_view w _ _ Hinv). apply call_handleFile_camera.
  - destruct (window_handleFile w) as [s|]; [|exact Hinv].
    refine (session_inv_camera_view w _ _ Hinv).
    destruct s; [apply static_classifyImage_camera|apply other_classifyImage_camera].
Qed.

Lemma run_keeps_inv cam evs w : session_inv w -> session_inv (run cam evs w).
Proof.
  revert w. induction evs as [|ev evs IH]; intros w Hinv; [exact Hinv|].
  apply IH, step_keeps_inv, Hinv.
Qed.

Lemma live_streams_spec w i : i ∈ live_streams w -> is_live w i.
Proof.
  unfold live_streams, is_live, live_at. intros Hi.
  apply list_elem_of_filter in Hi as [Hi _]. now apply Is_true_true.
Qed.


(** The three turns of a start that gets its stream, one after the other,
    are [startCamera]. *)
Lemma startCamera_in_three_turns cam n play_ok w :
  is_Some (cameraFeed (page w)) ->
  startCamera_of cam (GumStream n) play_ok w
  = (startCamera_click ;;;
     startCamera_resume_stream cam (GumStream n) ;;;
     startCamera_resume_play cam play_ok) w.
Proof.
  intros [v Hv].
  destruct w as [[sb uf rp pt pv dz cf ci bs] sf cs cc wh st tr].
  cbn [page cameraFeed] in Hv. subst cf.
  unfold startCamera_click, startCamera_resume_stream, startCamera_resume_play.
  destruct cam; exec; reflexivity.
Qed.










(** ** Capture and classification together *)



Lemma append_assoc_string (a b c : string) : (a +:+ b) +:+ c = a +:+ (b +:+ c).
Proof.
  induction a as [|x a IH]; [reflexivity|].
  change (String x ((a +:+ b) +:+ c) = String x (a +:+ (b +:+ c))).
  now rewrite IH.
Qed.

Lemma captured_file_is_jpg bits ts :
  fileExtension (file_name (captured_file bits ts)) = Some "jpg".
Proof.
  assert (file_name (captured_file bits ts)
          = ("camera_capture_" +:+ string_of_N ts) +:+ "." +:+ "jpg") as ->.
  { rewrite append_assoc_string. reflexivity. }
  now rewrite fileExtension_after_last_dot.
Qed.

Lemma requests_app es1 es2 : requests (es1 ++ es2) = requests es1 ++ requests es2.
Proof. apply omap_app. Qed.

Lemma requests_track_stops sid (ks : list nat) : requests (TrackStop sid <$> ks) = [].
Proof. induction ks; [reflexivity|assumption]. Qed.

Lemma static_classifyImage_requests e net w file :
  selectedFile w = Some file ->
  requests (trace (state_of (StaticUpload.classifyImage e net w)))
  = requests (trace w) ++ [("/predict", "file", file)].
Proof.
  intros Hsel. rewrite (static_classifyImage_settles e net w file Hsel).
  cbn [state_of emit_all trace set_page]. rewrite requests_app. f_equal.
  unfold busy_effect.
  destruct e, (submitBtn (page w)), (spec_verdict net); reflexivity.
Qed.

(** No request is issued: the observation of the requests in the trace. *)
Ltac no_request :=
  unfold requested;
  cbn [state_of trace emit emit_all set_page set_selectedFile set_cameraStream
       set_cameraCanvas set_streams stop_all_tracks];
  rewrite ?requests_app, ?requests_track_stops; cbn [requests omap list_omap];
  rewrite ?app_nil_r; reflexivity.

(** [static/camera.js] never leads to a request, whichever upload script
    is loaded and whatever the environment answers: the captured file is
    passed without the flag. *)
Lemma static_camera_never_submits env :
  preserves requested (StaticCamera.capturePhoto env).
Proof.
  unfold StaticCamera.capturePhoto, StaticCamera.toBlob_callback,
    StaticCamera.stopCamera, release_stream, draw_frame, capture_failed,
    pass_to_handleFile, call_handleFile,
    StaticUpload.handleFile, OtherUpload.handleFile, reader_settles,
    StaticUpload.reader_onload, StaticUpload.apply_preview,
    OtherUpload.reader_onload.
  cbn [default from_option id].
  repeat (frame_step ltac:(no_request)).
Qed.

(** The pair that the comments of the scripts describe, the second
    [camera.js] with [static/upload.js]: whenever the frame is drawn and
    encoded and the reader loads the image, the capture ends with the call
    [classifyImage(null)] made from [onload], on a world in which the
    session is torn down, the captured file is the selected one, and no
    request has been issued yet; the call then issues the one request. *)
Lemma second_camera_auto_submits env w sid v bits result :
  cameraStream w = Some sid ->
  cameraFeed (page w) = Some v ->
  draw_ok env = true ->
  blob env = Some bits ->
  cap_read env = ReadLoaded result ->
  window_handleFile w = Some StaticUploadJs ->
  exists w1,
    OtherCamera.capturePhoto env w
    = call_async (StaticUpload.classifyImage None (cap_net env)) w1
    /\ cameraStream w1 = None
    /\ selectedFile w1 = Some (captured_file bits (timestamp env))
    /\ requests (trace w1) = requests (trace w)
    /\ requests (trace (state_of (OtherCamera.capturePhoto env w)))
       = requests (trace w)
         ++ [("/predict", "file", captured_file bits (timestamp env))].
Proof.
  intros Hcs Hcf Hdraw Hblob Hread Hwh.
  assert (exists w1,
    OtherCamera.capturePhoto env w
    = call_async (StaticUpload.classifyImage None (cap_net env)) w1
    /\ cameraStream w1 = None
    /\ selectedFile w1 = Some (captured_file bits (timestamp env))
    /\ requests (trace w1) = requests (trace w)) as (w1 & Hrun & Hc & Hsel & Hreq).
  { destruct w as [[sb uf rp pt pv dz cf ci bs] sf cs cc wh st tr].
    cbn [cameraStream page cameraFeed window_handleFile] in Hcs, Hcf, Hwh.
    subst cs cf wh.
    unfold OtherCamera.capturePhoto. cbn [cameraStream page cameraFeed].
    unfold try_catch_then, draw_frame. rewrite Hdraw.
    unfold OtherCamera.toBlob_callback. rewrite Hblob.
    unfold pass_to_handleFile, call_handleFile, StaticUpload.handleFile.
    rewrite captured_file_is_jpg, Hread.
    change (includes allowedExtensions "jpg") with true.
    unfold StaticUpload.reader_onload.
    cbv [and_then lift negb default from_option reader_settles
         set_cameraCanvas emit release_stream OtherCamera.stopCamera
         set_cameraStream stop_all_tracks emit_all set_streams set_page
         set_selectedFile StaticUpload.apply_preview
         page selectedFile cameraStream cameraCanvas window_handleFile streams
         trace submitBtn put_cameraFeed put_cameraInterface put_dropzone
         put_btnScan put_preview put_submitBtn
         uploadForm resultsPanel predictionText preview dropzone cameraFeed
         cameraInterface btnScan].
    destruct sb as [b|].
    all: eexists; split; [reflexivity|].
    all: split; [reflexivity|]; split; [reflexivity|].
    all: cbn [trace]; rewrite !requests_app.
    all: rewrite requests_track_stops; cbn; now rewrite !app_nil_r. }
  exists w1. repeat (split; [assumption|]).
  rewrite Hrun. cbn [call_async state_of].
  now rewrite (static_classifyImage_requests None (cap_net env) w1 _ Hsel), Hreq.
Qed.

(** C2, evaluated.  A capture with [static/camera.js] never leads to a
    request, whatever the environment answers and whichever upload script
    is loaded.  In particular: the camera is on, the frame is drawn and encoded, the
    reader loads the image and the server would answer HDPE.  With
    [static/camera.js] the captured file reaches [handleFile] without a
    second argument: the preview is applied, no request is issued and the
    page stays in PreviewReady.  With the second [camera.js], which passes
    [true], and [static/upload.js] the request is issued from [onload] and
    the page ends in ResultShown with the label HDPE.  With the second
    [camera.js] and the second [upload.js], whose [handleFile] has no second
    parameter, no request is issued either. *)
Theorem capture_auto_submit_by_script_pair :
  (forall env w,
     requested (state_of (StaticCamera.capturePhoto env w)) = requested w)
  /\
  let shot cam up :=
    state_of (capturePhoto_of cam good_capture (camera_on cam up)) in
  let captured := captured_file [] 1700000000000 in
  (requests (trace (shot StaticCameraJs StaticUploadJs)) = []
   /\ selectedFile (shot StaticCameraJs StaticUploadJs) = Some captured
   /\ uiMode (page (shot StaticCameraJs StaticUploadJs)) = PreviewReady)
  /\ (requests (trace (shot OtherCameraJs StaticUploadJs))
      = [("/predict", "file", captured)]
      /\ predictionText (page (shot OtherCameraJs StaticUploadJs)) = Some "HDPE"
      /\ uiMode (page (shot OtherCameraJs StaticUploadJs)) = ResultShown)
  /\ (requests (trace (shot OtherCameraJs OtherUploadJs)) = []
      /\ selectedFile (shot OtherCameraJs OtherUploadJs) = Some captured).
Proof.
  split; [intros env w; apply static_camera_never_submits|].
  vm_compute. repeat split.
Qed.

(** * Further properties of the scripts *)

(** ** The capture session, start to stop *)

Lemma alerts_app es1 es2 : alerts (es1 ++ es2) = alerts es1 ++ alerts es2.
Proof. apply omap_app. Qed.

Lemma alerts_track_stops sid (ks : list nat) : alerts (TrackStop sid <$> ks) = [].
Proof. induction ks; [reflexivity|assumption]. Qed.

Lemma all_false_replicate (tracks : list bool) :
  (fun _ => false) <$> tracks = replicate (length tracks) false.
Proof. induction tracks; simpl; [reflexivity|now f_equal]. Qed.

(** X1.  [stopCamera] on a held stream stops each of its tracks once, in
    order, and nothing else on the device: the stream is left with all its
    tracks ended, the other streams are untouched, the trace grows by one
    [stop] per track, and the handle is cleared.  Both copies. *)
Theorem stopCamera_stops_each_track_once
    (cam : CameraScript) (w : World) (sid : nat) (tracks : list bool) :
  cameraStream w = Some sid ->
  streams w !! sid = Some tracks ->
  let w' := state_of (stopCamera_of cam w) in
  cameraStream w' = None
  /\ streams w' !! sid = Some (replicate (length tracks) false)
  /\ (forall j, j <> sid -> streams w' !! j = streams w !! j)
  /\ length (streams w') = length (streams w)
  /\ trace w' = trace w ++ (TrackStop sid <$> seq 0 (length tracks)).
Proof.
  intros Hcs Htr w'. subst w'.
  pose proof (stopCamera_session cam w) as Hs.
  unfold session_view, release_stream in Hs. rewrite Hcs in Hs.
  cbn [state_of] in Hs. injection Hs as Hst Hc.
  assert (Htrace : trace (state_of (stopCamera_of cam w))
                   = trace (set_cameraStream None (stop_all_tracks sid w))).
  { destruct (stopCamera_of_split cam) as (ui & -> & _ & Hui).
    unfold and_then, release_stream. rewrite Hcs. apply Hui. }
  split; [exact Hc|]. rewrite Hst, Htrace.
  unfold stop_all_tracks.
  cbn [streams trace set_cameraStream emit_all set_streams].
  rewrite Htr. cbn [default from_option id].
  split; [|split; [|split]].
  - rewrite list_lookup_alter_eq, Htr. cbn. now rewrite all_false_replicate.
  - intros j Hj. now apply list_lookup_alter_ne.
  - apply length_alter.
  - reflexivity.
Qed.

Lemma stopCamera_stops_each_track_once_witness :
  trace (state_of (stopCamera_of StaticCameraJs (camera_on StaticCameraJs StaticUploadJs)))
  = trace (camera_on StaticCameraJs StaticUploadJs) ++ (TrackStop 0 <$> seq 0 (length [true])).
Proof.
  pose proof (stopCamera_stops_each_track_once StaticCameraJs
                (camera_on StaticCameraJs StaticUploadJs) 0 [true] eq_refl eq_refl)
    as (_ & _ & _ & _ & H).
  exact H.
Defined.

Lemma live_at_start_undone st n i :
  live_at (alter (fmap (fun _ => false)) (length st) (st ++ [replicate n true])) i = true ->
  live_at st i = true.
Proof.
  intros H. apply live_at_stopped in H as [H Hne].
  apply live_at_new in H as [H|H]; [exact H|contradiction].
Qed.

(** X2.  A start that fails, because the device is refused or because the
    video cannot play, raises the alert "Unable to access camera..." and
    leaves nothing running: the stream handle is cleared and no stream has
    a live track that did not have one before (the stream just opened is
    stopped).  Both copies, also when the unchecked writes of
    [static/camera.js] throw. *)
Theorem startCamera_failure_releases
    (cam : CameraScript) (gum : GumOutcome) (play_ok : bool) (w : World) :
  is_Some (cameraFeed (page w)) ->
  gum = GumRejected \/ play_ok = false ->
  let w' := state_of (startCamera_of cam gum play_ok w) in
  cameraStream w' = None
  /\ (forall i, is_live w' i -> is_live w i)
  /\ alerts (trace w') = alerts (trace w) ++ [camera_denied_msg].
Proof.
  intros [v Hv] Hfail.
  destruct w as [[sb uf rp pt pv dz cf ci bs] sf cs cc wh st tr].
  cbn [page cameraFeed] in Hv. subst cf. unfold is_live.
  assert (Hal : forall k, alerts (tr ++ GetUserMedia "environment" :: k)
                          = alerts tr ++ alerts k)
    by (intros k; now rewrite alerts_app).
  destruct cam, gum as [|n], play_ok; try (destruct Hfail; discriminate);
    destruct cs, ci, dz, bs; exec;
    (split; [reflexivity|]); (split; [intros i Hi; cbn [streams] in *|]);
    first [ exact Hi
          | exact (proj1 (live_at_stopped _ _ _ Hi))
          | exact (live_at_start_undone _ _ _ Hi)
          | idtac ];
    rewrite ?Hal; cbn [alerts omap list_omap app];
    change (list_fmap nat Effect) with (@fmap list _ nat Effect);
    rewrite ?alerts_app, ?alerts_track_stops; cbn; rewrite ?app_nil_r;
    reflexivity.
Qed.

Lemma startCamera_failure_releases_witness :
  let w' := state_of (startCamera_of StaticCameraJs (GumStream 2) false
                        (loaded example_page (Some StaticUploadJs))) in
  cameraStream w' = None /\ live_streams w' = [].
Proof.
  pose proof (startCamera_failure_releases StaticCameraJs (GumStream 2) false
                (loaded example_page (Some StaticUploadJs))
                (ex_intro _ _ eq_refl) (or_intror eq_refl)) as (H & _ & _).
  split; [exact H|reflexivity].
Defined.

(** X3.  A start that gets its stream and plays, on a page that has the
    video, the camera interface, the dropzone and the scan button: the
    function returns; the device has one more stream, all of its tracks
    live, and [cameraStream] and the video's [srcObject] hold it; the
    camera interface is displayed, the dropzone and the scan button are
    hidden (so the button cannot be clicked again); the trace grows by the
    request to the device, asking for the 'environment' camera, and the
    [play]; the selected file is untouched.  Both copies end in the same
    world. *)
Theorem startCamera_success_shows_camera
    (cam : CameraScript) (n : nat) (w : World)
    (v : Video) (ci bs : string) (z : Dropzone) :
  cameraFeed (page w) = Some v ->
  cameraInterface (page w) = Some ci ->
  dropzone (page w) = Some z ->
  btnScan (page w) = Some bs ->
  exists w',
    startCamera_of cam (GumStream n) true w = Done w'
    /\ StaticCamera.startCamera (GumStream n) true w
       = OtherCamera.startCamera (GumStream n) true w
    /\ streams w' = streams w ++ [replicate n true]
    /\ cameraStream w' = Some (length (streams w))
    /\ cameraFeed (page w') = Some (with_srcObject (Some (length (streams w))) v)
    /\ cameraInterface (page w') = Some "flex"
    /\ dropzone (page w') = Some (with_display "none" z)
    /\ btnScan (page w') = Some "none"
    /\ scan_clickable (page w') = false
    /\ cameraShown (page w') = true
    /\ selectedFile w' = selectedFile w
    /\ trace w' = trace w ++ [GetUserMedia "environment"; VideoPlay].
Proof.
  intros Hcf Hci Hdz Hbs.
  destruct w as [[sb uf rp pt pv dz cf ci0 bs0] sf cs cc wh st tr].
  cbn [page cameraFeed cameraInterface dropzone btnScan] in *. subst.
  eexists. split; [destruct cam; exec; reflexivity|].
  split; [exec; reflexivity|].
  cbn [streams cameraStream page cameraFeed cameraInterface dropzone btnScan
       selectedFile trace].
  repeat split.
Qed.

Lemma startCamera_success_shows_camera_witness :
  cameraStream (camera_on OtherCameraJs StaticUploadJs) = Some 0.
Proof.
  destruct (startCamera_success_shows_camera OtherCameraJs 1
              (loaded example_page (Some StaticUploadJs)) _ _ _ _
              eq_refl eq_refl eq_refl eq_refl)
    as (w' & Hrun & _ & _ & Hcs & _).
  change (camera_on OtherCameraJs StaticUploadJs)
    with (state_of (startCamera_of OtherCameraJs (GumStream 1) true
                      (loaded example_page (Some StaticUploadJs)))).
  rewrite Hrun. exact Hcs.
Defined.

(** X4.  On a page that has the video, the camera interface, the dropzone
    and the scan button the two copies of [camera.js] do the same: their
    [startCamera] agree on every answer of the device, and so do their
    [stopCamera].  Their [capturePhoto] differ only in the second argument
    given to [window.handleFile]: they agree whenever [static/upload.js]
    is not the script that is loaded. *)
Theorem camera_copies_agree_on_complete_page
    (w : World) (v : Video) (ci bs : string) (z : Dropzone) :
  cameraFeed (page w) = Some v ->
  cameraInterface (page w) = Some ci ->
  dropzone (page w) = Some z ->
  btnScan (page w) = Some bs ->
  StaticCamera.stopCamera w = OtherCamera.stopCamera w
  /\ (forall gum play_ok,
        StaticCamera.startCamera gum play_ok w = OtherCamera.startCamera gum play_ok w)
  /\ (window_handleFile w <> Some StaticUploadJs ->
      forall env, StaticCamera.capturePhoto env w = OtherCamera.capturePhoto env w).
Proof.
  intros Hcf Hci Hdz Hbs.
  destruct w as [[sb uf rp pt pv dz cf ci0 bs0] sf cs cc wh st tr].
  cbn [page cameraFeed cameraInterface dropzone btnScan window_handleFile] in *.
  subst.
  split; [destruct cs; exec; reflexivity|].
  split; [intros [|n] []; destruct cs; exec; reflexivity|].
  intros Hwh env.
  unfold StaticCamera.capturePhoto, OtherCamera.capturePhoto,
    StaticCamera.toBlob_callback, OtherCamera.toBlob_callback.
  destruct cs as [sid|]; [|reflexivity]. cbn [cameraStream page cameraFeed].
  unfold try_catch_then.
  destruct (draw_frame env v _) as [w0|w0] eqn:Hdraw; [|reflexivity].
  assert (Hpg : (page w0, session_view w0, window_handleFile w0)
                = (page (state_of (draw_frame env v
                     {| page := {| submitBtn := sb; uploadForm := uf;
                                   resultsPanel := rp; predictionText := pt;
                                   preview := pv; dropzone := Some z;
                                   cameraFeed := Some v;
                                   cameraInterface := Some ci;
                                   btnScan := Some bs |};
                        selectedFile := sf; cameraStream := Some sid;
                        cameraCanvas := cc; window_handleFile := wh;
                        streams := st; trace := tr |})),
                   (st, Some sid), wh)).
  { rewrite Hdraw. cbn [state_of].
    unfold draw_frame in Hdraw. destruct (draw_ok env); [|discriminate].
    injection Hdraw as <-. reflexivity. }
  destruct (blob env) as [bits|]; [|reflexivity].
  destruct w0 as [[sb1 uf1 rp1 pt1 pv1 dz1 cf1 ci1 bs1] sf1 cs1 cc1 wh1 st1 tr1].
  unfold draw_frame in Hpg. destruct (draw_ok env); cbn in Hpg;
    injection Hpg as -> -> -> -> -> -> -> -> -> -> -> ->.
  all: unfold and_then, pass_to_handleFile.
  all: exec.
  all: destruct wh as [[]|]; [contradiction|reflexivity..].
Qed.

Lemma camera_copies_agree_on_complete_page_witness :
  StaticCamera.stopCamera (camera_on StaticCameraJs OtherUploadJs)
  = OtherCamera.stopCamera (camera_on StaticCameraJs OtherUploadJs).
Proof.
  exact (proj1 (camera_copies_agree_on_complete_page
                  (camera_on StaticCameraJs OtherUploadJs) _ _ _ _
                  eq_refl eq_refl eq_refl eq_refl)).
Defined.

Lemma capture_success_session cam env w sid v bits :
  cameraStream w = Some sid ->
  cameraFeed (page w) = Some v ->
  draw_ok env = true ->
  blob env = Some bits ->
  torn_down sid (state_of (capturePhoto_of cam env w))
  /\ (forall j, j <> sid ->
        streams (state_of (capturePhoto_of cam env w)) !! j = streams w !! j).
Proof.
  intros Hcs Hcf Hdraw Hblob.
  rewrite (capturePhoto_of_unfold cam env w sid v Hcs Hcf).
  unfold try_catch_then, draw_frame. rewrite Hdraw, Hblob.
  change ((lift (set_cameraCanvas (videoWidth v, videoHeight v)) ;;;
           lift (emit (DrawImage (videoWidth v) (videoHeight v))) ;;;
           lift (emit (ToBlob "image/jpeg" 9))) w)
    with (Done (emit (ToBlob "image/jpeg" 9)
                 (emit (DrawImage (videoWidth v) (videoHeight v))
                   (set_cameraCanvas (videoWidth v, videoHeight v) w)))).
  set (w0 := emit _ _).
  assert (Hcs0 : cameraStream w0 = Some sid) by exact Hcs.
  pose proof (stopCamera_tears_down cam w0 sid Hcs0) as Hdown.
  pose proof (stopCamera_session cam w0) as Hs.
  unfold session_view, release_stream in Hs. rewrite Hcs0 in Hs.
  cbn [state_of] in Hs. injection Hs as Hst _.
  assert (Hother : forall j, j <> sid ->
            streams (state_of (stopCamera_of cam w0)) !! j = streams w !! j).
  { intros j Hj. rewrite Hst. exact (stop_all_tracks_other sid j w0 Hj). }
  unfold and_then.
  destruct (stopCamera_of cam w0) as [w1|w1]; cbn [state_of] in *;
    [|split; assumption].
  pose proof (pass_to_handleFile_camera (capture_flag cam) env bits w1) as Hv.
  split; [exact (torn_down_camera_view sid w1 _ Hv Hdown)|].
  intros j Hj. unfold camera_view in Hv. injection Hv as -> _ _.
  now apply Hother.
Qed.

(** X5.  Once a capture has succeeded the session is over: a further
    [capturePhoto] (a second press of the button, whatever the environment
    would answer) returns at once and changes nothing, and a further
    [stopCamera] stops no track.  Both copies. *)
Theorem capture_after_capture_does_nothing
    (cam : CameraScript) (env env' : CaptureEnv) (w : World)
    (sid : nat) (v : Video) (bits : list Byte.byte) :
  cameraStream w = Some sid ->
  cameraFeed (page w) = Some v ->
  draw_ok env = true ->
  blob env = Some bits ->
  let w' := state_of (capturePhoto_of cam env w) in
  capturePhoto_of cam env' w' = Done w'
  /\ streams (state_of (stopCamera_of cam w')) = streams w'
  /\ trace (state_of (stopCamera_of cam w')) = trace w'.
Proof.
  intros Hcs Hcf Hdraw Hblob w'.
  destruct (capture_success_session cam env w sid v bits Hcs Hcf Hdraw Hblob)
    as [[Hnone _] _].
  fold w' in Hnone.
  split.
  - destruct cam; cbn [capturePhoto_of];
      unfold StaticCamera.capturePhoto, OtherCamera.capturePhoto;
      now rewrite Hnone.
  - destruct (stopCamera_of_split cam) as (ui & -> & Hui & Htr).
    unfold and_then, release_stream. rewrite Hnone.
    split; [|apply Htr].
    specialize (Hui w'). unfold session_view in Hui. congruence.
Qed.

Lemma capture_after_capture_does_nothing_witness :
  let w' := state_of (capturePhoto_of OtherCameraJs good_capture
                        (camera_on OtherCameraJs StaticUploadJs)) in
  capturePhoto_of OtherCameraJs null_blob_capture w' = Done w'.
Proof.
  exact (proj1 (capture_after_capture_does_nothing OtherCameraJs good_capture
                  null_blob_capture (camera_on OtherCameraJs StaticUploadJs)
                  0 _ [] eq_refl eq_refl eq_refl eq_refl)).
Defined.

(** ** Classification beside the rest of the page *)


(** ** Classification beside the rest of the page *)

(** X6.  A classification, whatever its outcome and in both copies of
    [upload.js], leaves alone everything but the submit button and the
    result view: the selected file is kept (so the request can be made
    again), and the camera's stream, canvas and elements, the device, the
    dropzone and [window.handleFile] are as they were. *)
Theorem classifyImage_leaves_rest_alone
    (s : UploadScript) (e : option unit) (net : FetchOutcome) (w : World) :
  beside_classification (state_of (classifyImage_of s e net w))
  = beside_classification w.
Proof.
  revert w. change (preserves beside_classification (classifyImage_of s e net)).
  destruct s; cbn [classifyImage_of].
  - unfold StaticUpload.classifyImage, StaticUpload.displayResults,
      StaticUpload.showLoading, StaticUpload.hideLoading. frame.
  - unfold OtherUpload.classifyImage, OtherUpload.displayResults,
      OtherUpload.showLoading, OtherUpload.hideLoading. frame.
Qed.

(** X7.  On a page that has the submit button with its spinner and text,
    the label, the form, the results panel and the preview, the two copies
    of [upload.js] classify alike: for the submit event of the form their
    [classifyImage] end in the same world with the same trace, whatever the
    network answers and whether or not a file is selected. *)
Theorem upload_copies_agree_on_classifyImage
    (net : FetchOutcome) (w : World) (b : Button) (sp bt pt uf rp : string)
    (pv : Preview) :
  submitBtn (page w) = Some b ->
  spinner b = Some sp ->
  button_text b = Some bt ->
  predictionText (page w) = Some pt ->
  uploadForm (page w) = Some uf ->
  resultsPanel (page w) = Some rp ->
  preview (page w) = Some pv ->
  OtherUpload.classifyImage (Some tt) net w
  = StaticUpload.classifyImage (Some tt) net w.
Proof.
  intros Hb Hsp Hbt Hpt Huf Hrp Hpv.
  destruct w as [[sb uf0 rp0 pt0 pv0 dz cf ci bs] sf cs cc wh st tr].
  destruct b as [d sp0 bt0].
  cbn [page submitBtn predictionText uploadForm resultsPanel preview
       spinner button_text] in *. subst.
  unfold OtherUpload.classifyImage, StaticUpload.classifyImage,
    OtherUpload.displayResults, StaticUpload.displayResults.
  destruct sf as [file|]; [|exec; reflexivity].
  destruct net as [|ok [|data]]; [exec; reflexivity..|].
  destruct (get_prop data "success") as [sv|] eqn:Hs.
  - assert (exists ev lv, get_prop data "error" = Some ev
                          /\ get_prop data "prediction" = Some lv)
      as (ev & lv & -> & ->).
    { destruct data as [[]|]; try discriminate; cbn [get_prop]; eauto. }
    cbn [fmap option_fmap option_map].
    destruct ok, (truthy sv); exec; reflexivity.
  - assert (get_prop data "error" = None) as ->.
    { destruct data as [[]|]; try discriminate; reflexivity. }
    cbn [fmap option_fmap option_map].
    destruct ok; exec; reflexivity.
Qed.

Lemma upload_copies_agree_on_classifyImage_witness :
  OtherUpload.classifyImage (Some tt) unavailable_response (photo_chosen StaticUploadJs)
  = StaticUpload.classifyImage (Some tt) unavailable_response (photo_chosen StaticUploadJs).
Proof.
  exact (upload_copies_agree_on_classifyImage unavailable_response
           (photo_chosen StaticUploadJs) _ _ _ _ _ _ _
           eq_refl eq_refl eq_refl eq_refl eq_refl eq_refl eq_refl).
Defined.

(** X8.  The second copy of [upload.js] does not check the children of the
    submit button.  When the button has no [.spinner], [showLoading] throws
    inside the [try] before [fetch] is reached: no request is issued, the
    alert is the one of a network error, [hideLoading] throws in turn from
    the [finally] block (the promise is rejected), and the button is left
    enabled with its text unchanged. *)
Theorem other_classifyImage_without_spinner
    (net : FetchOutcome) (w : World) (file : File) (b : Button) :
  selectedFile w = Some file ->
  submitBtn (page w) = Some b ->
  spinner b = None ->
  exists w',
    OtherUpload.classifyImage (Some tt) net w = Threw w'
    /\ trace w' = trace w ++ [PreventDefault; SetDisabled true;
                              Alert network_error_msg;
                              ConsoleError "Fetch error:"; SetDisabled false]
    /\ requested w' = requested w
    /\ page w' = put_submitBtn (with_disabled false) (page w).
Proof.
  intros Hsel Hb Hsp.
  destruct w as [[sb uf rp pt pv dz cf ci bs] sf cs cc wh st tr].
  destruct b as [d sp bt].
  cbn [page submitBtn selectedFile spinner] in *. subst.
  eexists. split; [exec; reflexivity|].
  split; [reflexivity|]. split; [|reflexivity].
  unfold requested. cbn [trace]. rewrite requests_app. cbn. apply app_nil_r.
Qed.

Lemma other_classifyImage_without_spinner_witness :
  exists w',
    OtherUpload.classifyImage (Some tt) hdpe_response
      (set_page (put_submitBtn (fun b => {| disabled := disabled b; spinner := None;
                                            button_text := button_text b |}))
         (photo_chosen OtherUploadJs)) = Threw w'
    /\ requested w' = [].
Proof.
  destruct (other_classifyImage_without_spinner hdpe_response
              (set_page (put_submitBtn (fun b => {| disabled := disabled b; spinner := None;
                                                    button_text := button_text b |}))
                 (photo_chosen OtherUploadJs))
              photo_png _ eq_refl eq_refl eq_refl) as (w' & Hrun & _ & Hreq & _).
  exists w'. split; [exact Hrun|exact Hreq].
Defined.

Lemma static_apply_preview_requested result :
  preserves requested (StaticUpload.apply_preview result).
Proof.
  unfold StaticUpload.apply_preview. repeat (frame_step ltac:(no_request)).
Qed.

Lemma static_apply_preview_selectedFile result :
  preserves selectedFile (StaticUpload.apply_preview result).
Proof. unfold StaticUpload.apply_preview. frame. Qed.

Lemma other_handleFile_requested file rd :
  preserves requested (OtherUpload.handleFile file rd).
Proof.
  unfold OtherUpload.handleFile, reader_settles, OtherUpload.reader_onload.
  repeat (frame_step ltac:(no_request)).
Qed.

(** X9.  [handleFile] on a file with an allowed extension issues a request
    in one case only: in [static/upload.js], when [true] was passed for
    [autoClassify] and the reader has loaded the preview; the request is
    then the one POST to /predict carrying that file.  Without the flag,
    with [false], or when the reader fails, no request is issued; the
    second copy never issues one. *)
Theorem handleFile_requests_only_when_asked
    (file : File) (ext : string) (flag : option bool)
    (rd : ReadOutcome) (net : FetchOutcome) (w : World) :
  fileExtension (file_name file) = Some ext ->
  includes allowedExtensions ext = true ->
  requested (state_of (StaticUpload.handleFile file flag rd net w))
  = requested w ++ match flag, rd with
                   | Some true, ReadLoaded _ => [("/predict", "file", file)]
                   | _, _ => []
                   end
  /\ requested (state_of (OtherUpload.handleFile file rd w)) = requested w.
Proof.
  intros Hext Hin. split; [|apply other_handleFile_requested].
  unfold StaticUpload.handleFile. rewrite Hext, Hin. cbn [negb].
  unfold and_then at 1 2, lift at 1 2.
  set (w1 := emit _ _).
  assert (Hr1 : requested w1 = requested w).
  { subst w1. no_request. }
  assert (Hs1 : selectedFile w1 = Some file) by reflexivity.
  unfold reader_settles, StaticUpload.reader_onload.
  destruct rd as [result|].
  2:{ cbn [skip state_of]. rewrite Hr1.
      destruct flag as [[]|]; now rewrite app_nil_r. }
  unfold and_then.
  pose proof (static_apply_preview_requested result w1) as Hr2.
  pose proof (static_apply_preview_selectedFile result w1) as Hs2.
  assert (exists w2, StaticUpload.apply_preview result w1 = Done w2) as [w2 Hw2].
  { unfold StaticUpload.apply_preview, and_then, lift.
    destruct (submitBtn _); eauto. }
  rewrite Hw2 in *. cbn [state_of] in Hr2, Hs2.
  destruct flag as [[]|]; cbn [default from_option id skip state_of call_async].
  - unfold requested in *.
    rewrite (static_classifyImage_requests None net w2 file); congruence.
  - rewrite app_nil_r. congruence.
  - rewrite app_nil_r. congruence.
Qed.

Lemma handleFile_requests_only_when_asked_witness :
  requested (state_of (StaticUpload.handleFile photo_png (Some true)
     (ReadLoaded "data:image/png;base64,AA") hdpe_response
     (loaded example_page (Some StaticUploadJs))))
  = requested (loaded example_page (Some StaticUploadJs))
    ++ [("/predict", "file", photo_png)].
Proof.
  exact (proj1 (handleFile_requests_only_when_asked photo_png "png" (Some true)
                  (ReadLoaded "data:image/png;base64,AA") hdpe_response
                  (loaded example_page (Some StaticUploadJs)) eq_refl eq_refl)).
Defined.

(** ** The extension check, further *)

Lemma toLowerCase_char_idem c :
  toLowerCase_char (toLowerCase_char c) = toLowerCase_char c.
Proof. destruct c as [[] [] [] [] [] [] [] []]; reflexivity. Qed.

Lemma toLowerCase_char_dot c :
  Ascii.eqb "." (toLowerCase_char c) = Ascii.eqb "." c.
Proof. destruct c as [[] [] [] [] [] [] [] []]; reflexivity. Qed.

Lemma toLowerCase_idem s : toLowerCase (toLowerCase s) = toLowerCase s.
Proof.
  induction s as [|c s IH]; [reflexivity|].
  cbn [toLowerCase]. now rewrite toLowerCase_char_idem, IH.
Qed.

Lemma has_dot_toLowerCase s : has_dot (toLowerCase s) = has_dot s.
Proof.
  unfold has_dot. induction s as [|c s IH]; [reflexivity|].
  cbn [toLowerCase list_ascii_of_string existsb].
  now rewrite toLowerCase_char_dot, IH.
Qed.

Lemma split_segments_without_dot s :
  Forall (fun seg => has_dot seg = false) (split "." s).
Proof.
  induction s as [|c s IH]; cbn [split]; [repeat constructor|].
  destruct (Ascii.eqb c ".") eqn:Hc; [constructor; [reflexivity|exact IH]|].
  destruct (split "." s) as [|seg segs]; [repeat constructor|].
  - unfold has_dot. cbn [list_ascii_of_string existsb].
    rewrite Ascii.eqb_sym, Hc. reflexivity.
  - inversion IH as [|? ? Hseg Hsegs]; subst. constructor; [|exact Hsegs].
    unfold has_dot in *. cbn [list_ascii_of_string existsb].
    now rewrite Ascii.eqb_sym, Hc, Hseg.
Qed.

Lemma fileExtension_shape name e :
  fileExtension name = Some e -> has_dot e = false /\ toLowerCase e = e.
Proof.
  unfold fileExtension. intros H.
  destruct (last (split "." name)) as [seg|] eqn:Hlast; [|discriminate].
  injection H as <-.
  split; [|apply toLowerCase_idem].
  rewrite has_dot_toLowerCase.
  pose proof (split_segments_without_dot name) as Hall.
  rewrite Forall_forall in Hall. apply Hall.
  apply last_Some in Hlast as [l' ->]. set_solver.
Qed.

(** X10.  The extension [handleFile] reads is always one lowercase segment:
    it holds no dot and lowercasing it again changes nothing.  Only the
    text after the last dot decides, whatever stands before it: a name
    [stem.ext] is let through exactly when the lowercased [ext] is one of
    png, jpg, jpeg, so [photo.png.exe] and a name ending in a dot are
    refused with the alert and [archive.tar.JPG] becomes the selected
    file.  Both copies. *)
Theorem extension_is_decided_by_last_segment :
  (forall name e,
     fileExtension name = Some e -> has_dot e = false /\ toLowerCase e = e)
  /\ (forall file stem ext flag rd net w,
        file_name file = stem +:+ "." +:+ ext ->
        has_dot ext = false ->
        accepted file = includes allowedExtensions (toLowerCase ext)
        /\ (if includes allowedExtensions (toLowerCase ext)
            then selectedFile (state_of (StaticUpload.handleFile file flag rd net w))
                 = Some file
                 /\ selectedFile (state_of (OtherUpload.handleFile file rd w))
                    = Some file
            else StaticUpload.handleFile file flag rd net w
                 = Done (emit (Alert invalid_type_msg) w)
                 /\ OtherUpload.handleFile file rd w
                    = Done (emit (Alert invalid_type_msg) w))).
Proof.
  split; [exact fileExtension_shape|].
  intros file stem ext flag rd net w Hname Hdot.
  pose proof (fileExtension_after_last_dot stem ext Hdot) as Hext.
  rewrite <- Hname in Hext.
  split; [unfold accepted; now rewrite Hext|].
  destruct (includes allowedExtensions (toLowerCase ext)) eqn:Hin.
  - split; [eapply static_handleFile_selects|eapply other_handleFile_selects];
      eassumption.
  - unfold StaticUpload.handleFile, OtherUpload.handleFile.
    rewrite Hext, Hin. split; reflexivity.
Qed.

Lemma extension_is_decided_by_last_segment_witness :
  StaticUpload.handleFile
    {| file_name := "photo.png.exe"; file_type := ""; file_bits := [] |}
    None ReadFailed FetchRejected (fresh example_page)
  = Done (emit (Alert invalid_type_msg) (fresh example_page))
  /\ selectedFile (state_of (OtherUpload.handleFile
        {| file_name := "archive.tar.JPG"; file_type := ""; file_bits := [] |}
        ReadFailed (fresh example_page)))
     = Some {| file_name := "archive.tar.JPG"; file_type := ""; file_bits := [] |}
  /\ has_dot "jpg" = false.
Proof.
  destruct extension_is_decided_by_last_segment as [Hshape Hdec].
  split; [|split].
  - exact (proj1 (proj2 (Hdec {| file_name := "photo.png.exe"; file_type := "";
                               file_bits := [] |}
                           "photo.png" "exe" None ReadFailed FetchRejected
                           (fresh example_page) eq_refl eq_refl))).
  - exact (proj2 (proj2 (Hdec {| file_name := "archive.tar.JPG"; file_type := "";
                               file_bits := [] |}
                           "archive.tar" "JPG" None ReadFailed FetchRejected
                           (fresh example_page) eq_refl eq_refl))).
  - exact (proj1 (Hshape "a.b.JPG" "jpg" eq_refl)).
Defined.

(** ** What every reachable state satisfies *)

Section Keeps.
Context (P : World -> Prop).

Lemma keeps_skip : keeps P skip.
Proof. intros w H. exact H. Qed.

Lemma keeps_throw : keeps P throw.
Proof. intros w H. exact H. Qed.

Lemma keeps_lift g : (forall w, P w -> P (g w)) -> keeps P (lift g).
Proof. intros H w. apply H. Qed.

Lemma keeps_and_then p q : keeps P p -> keeps P q -> keeps P (p ;;; q).
Proof.
  intros Hp Hq w H. unfold and_then. specialize (Hp w H).
  destruct (p w) as [w'|w']; cbn [state_of] in *; [now apply Hq|exact Hp].
Qed.

Lemma keeps_try_catch p h : keeps P p -> keeps P h -> keeps P (try_catch p h).
Proof.
  intros Hp Hh w H. unfold try_catch. specialize (Hp w H).
  destruct (p w) as [w'|w']; cbn [state_of] in *; [exact Hp|now apply Hh].
Qed.

Lemma keeps_try_finally p h : keeps P p -> keeps P h -> keeps P (try_finally p h).
Proof.
  intros Hp Hh w H. unfold try_finally. specialize (Hp w H).
  destruct (p w) as [w'|w']; cbn [state_of] in *; now apply Hh.
Qed.

Lemma keeps_try_catch_then p h k :
  keeps P p -> keeps P h -> keeps P k -> keeps P (try_catch_then p h k).
Proof.
  intros Hp Hh Hk w H. unfold try_catch_then. specialize (Hp w H).
  destruct (p w) as [w'|w']; cbn [state_of] in *; [now apply Hk|now apply Hh].
Qed.

Lemma keeps_then_task p q : keeps P p -> keeps P q -> keeps P (then_task p q).
Proof.
  intros Hp Hq w H. unfold then_task. specialize (Hp w H).
  destruct (p w) as [w'|w']; cbn [state_of] in *; now apply Hq.
Qed.

Lemma keeps_call_async p : keeps P p -> keeps P (call_async p).
Proof. intros Hp w H. now apply Hp. Qed.

Lemma keeps_write_unchecked {B} (get : Page -> option B) upd :
  (forall w, P w -> P (set_page upd w)) -> keeps P (write_unchecked get upd).
Proof.
  intros Hu w H. unfold write_unchecked.
  destruct (get (page w)); cbn [state_of]; [now apply Hu|exact H].
Qed.
End Keeps.

(** Splits a procedure along its combinators, as [frame_step] does, for a
    property that is kept. *)
Ltac keep_step leaf :=
  lazymatch goal with
  | H : keeps ?P ?p |- keeps ?P ?p => exact H
  | |- keeps _ skip => apply keeps_skip
  | |- keeps _ throw => apply keeps_throw
  | |- keeps _ (and_then _ _) => apply keeps_and_then
  | |- keeps _ (try_catch _ _) => apply keeps_try_catch
  | |- keeps _ (try_finally _ _) => apply keeps_try_finally
  | |- keeps _ (try_catch_then _ _ _) => apply keeps_try_catch_then
  | |- keeps _ (then_task _ _) => apply keeps_then_task
  | |- keeps _ (call_async _) => apply keeps_call_async
  | |- keeps _ (lift _) => apply keeps_lift; leaf
  | |- keeps _ (write_unchecked _ _) => apply keeps_write_unchecked; leaf
  | |- keeps _ (fun _ => _) =>
      let w := fresh "w" in let Hw := fresh "Hw" in intros w Hw
  | |- keeps _ _ => first [ solve [auto] | break_match ]
  | Hw : ?P ?w |- ?P (state_of (?p ?w)) =>
      first [ exact Hw | break_match
            | let H := fresh in
              assert (H : keeps P p); [|exact (H w Hw)] ]
  | |- _ (state_of _) => first [ assumption | break_match | leaf ]
  end.

Lemma Forall_requested_emit (Q : string * string * File -> Prop) e w :
  Forall Q (requested w) ->
  (forall u k f, e = FetchPost u k f -> Q (u, k, f)) ->
  Forall Q (requested (emit e w)).
Proof.
  intros Hr He. unfold requested. cbn [trace emit]. rewrite requests_app.
  apply Forall_app. split; [exact Hr|].
  destruct e; cbn; try constructor; [|constructor]. now apply He.
Qed.

Lemma only_checked_files_same w w' :
  selectedFile w' = selectedFile w ->
  requested w' = requested w ->
  only_checked_files w -> only_checked_files w'.
Proof. unfold only_checked_files. intros -> ->. trivial. Qed.

(** The single writes of the scripts keep [only_checked_files]: a page or
    device write changes neither the selection nor the requests; a
    selection is of a file that passed the check; a request carries the
    selected file. *)
Ltac checked_leaf :=
  try (let w := fresh "w" in let Hw := fresh "Hw" in intros w Hw);
  cbn [state_of];
  first
    [ assumption
    | match goal with
      | Hw : only_checked_files ?w |- _ =>
          apply (only_checked_files_same w); [reflexivity|no_request|exact Hw]
      end
    | match goal with
      | Hw : only_checked_files ?w
        |- only_checked_files (set_selectedFile (Some ?file) ?w) =>
          split;
          [ let f := fresh "f" in
            let Hf := fresh "Hf" in
            intros f Hf; injection Hf as <-; unfold accepted;
            match goal with
            | H : fileExtension (file_name file) = Some _ |- _ => rewrite H
            end;
            apply negb_false_iff; assumption
          | exact (proj2 Hw) ]
      end
    | match goal with
      | Hw : only_checked_files ?w
        |- only_checked_files (emit (FetchPost _ _ ?file) ?w) =>
          split;
          [ exact (proj1 Hw)
          | apply Forall_requested_emit; [exact (proj2 Hw)|];
            let He := fresh "He" in
            intros ? ? ? He; injection He as <- <- <-;
            eexists; (split; [reflexivity|]);
            match goal with
            | Hg : only_checked_files ?w0, E : selectedFile ?w0 = Some file
              |- _ => exact (proj1 Hg file E)
            end ]
      end ].

Lemma static_classifyImage_checked e net :
  keeps only_checked_files (StaticUpload.classifyImage e net).
Proof.
  unfold StaticUpload.classifyImage, StaticUpload.displayResults,
    StaticUpload.showLoading, StaticUpload.hideLoading.
  repeat (keep_step ltac:(checked_leaf)).
Qed.

Lemma other_classifyImage_checked e net :
  keeps only_checked_files (OtherUpload.classifyImage e net).
Proof.
  unfold OtherUpload.classifyImage, OtherUpload.displayResults,
    OtherUpload.showLoading, OtherUpload.hideLoading.
  repeat (keep_step ltac:(checked_leaf)).
Qed.

Lemma call_handleFile_checked s file flag rd net :
  keeps only_checked_files (call_handleFile s file flag rd net).
Proof.
  pose proof (static_classifyImage_checked None net).
  destruct s;
    unfold call_handleFile, StaticUpload.handleFile, OtherUpload.handleFile,
      reader_settles, StaticUpload.reader_onload, StaticUpload.apply_preview,
      OtherUpload.reader_onload;
    repeat (keep_step ltac:(checked_leaf)).
Qed.

Lemma stopCamera_checked cam : keeps only_checked_files (stopCamera_of cam).
Proof.
  destruct cam;
    unfold stopCamera_of, StaticCamera.stopCamera, OtherCamera.stopCamera,
      release_stream;
    repeat (keep_step ltac:(checked_leaf)).
Qed.

Lemma startCamera_checked cam gum ok :
  keeps only_checked_files (startCamera_of cam gum ok).
Proof.
  pose proof (stopCamera_checked StaticCameraJs).
  pose proof (stopCamera_checked OtherCameraJs).
  cbn [stopCamera_of] in *.
  destruct cam;
    unfold startCamera_of, StaticCamera.startCamera, OtherCamera.startCamera,
      StaticCamera.start_failed, OtherCamera.start_failed,
      StaticCamera.show_camera, OtherCamera.show_camera,
      request_stream, stream_settles, play_settles;
    repeat (keep_step ltac:(checked_leaf)).
Qed.

Lemma capturePhoto_checked cam env :
  keeps only_checked_files (capturePhoto_of cam env).
Proof.
  pose proof (stopCamera_checked StaticCameraJs).
  pose proof (stopCamera_checked OtherCameraJs).
  cbn [stopCamera_of] in *.
  assert (forall flag bits, keeps only_checked_files (pass_to_handleFile flag env bits)).
  { intros flag bits w Hw. unfold pass_to_handleFile.
    destruct (window_handleFile w); [now apply call_handleFile_checked|].
    checked_leaf. }
  destruct cam;
    unfold capturePhoto_of, StaticCamera.capturePhoto, OtherCamera.capturePhoto,
      StaticCamera.toBlob_callback, OtherCamera.toBlob_callback,
      draw_frame, capture_failed;
    repeat (keep_step ltac:(checked_leaf)).
Qed.

Lemma handle_checked cam ev : keeps only_checked_files (handle cam ev).
Proof.
  intros w Hw. unfold handle. destruct ev as [gum ok|env|file rd|net].
  - destruct (scan_clickable (page w)); [|exact Hw].
    now apply startCamera_checked.
  - now apply capturePhoto_checked.
  - destruct (window_handleFile w); [|exact Hw].
    now apply call_handleFile_checked.
  - destruct (window_handleFile w) as [[]|]; [| |exact Hw].
    + now apply static_classifyImage_checked.
    + now apply other_classifyImage_checked.
Qed.

Lemma run_checked cam evs w :
  only_checked_files w -> only_checked_files (run cam evs w).
Proof.
  revert w. induction evs as [|ev evs IH]; intros w H; [exact H|].
  apply IH. exact (handle_checked cam ev w H).
Qed.

Lemma loaded_checked pg upload : only_checked_files (loaded pg upload).
Proof.
  assert (H : only_checked_files (fresh pg)).
  { split; [intros f Hf; discriminate|constructor]. }
  destruct upload; [|exact H].
  refine (only_checked_files_same (fresh pg) _ _ _ H); reflexivity.
Qed.

(** X11.  In every state the page can reach by its events (both copies of
    either script), the selected file, if there is one, has passed the
    check of its extension, and every request issued so far is a POST to
    /predict with a file that passed the check in the field [file]: no
    other endpoint is ever called and no unchecked file is ever sent. *)
Theorem only_checked_files_are_selected_and_sent (cam : CameraScript) (w : World) :
  reachable cam w ->
  (forall f, selectedFile w = Some f -> accepted f = true)
  /\ (forall u k f, (u, k, f) ∈ requested w ->
        u = "/predict" /\ k = "file" /\ accepted f = true).
Proof.
  intros (pg & upload & evs & ->).
  destruct (run_checked cam evs _ (loaded_checked pg upload)) as [Hs Hr].
  split; [exact Hs|].
  intros u k f Hin. rewrite Forall_forall in Hr.
  destruct (Hr _ Hin) as (f' & [= -> -> ->] & Hacc). auto.
Qed.

Lemma only_checked_files_are_selected_and_sent_witness :
  let w := run OtherCameraJs [ClickScan (GumStream 1) true; ClickSnap good_capture]
             (loaded example_page (Some StaticUploadJs)) in
  requested w = [("/predict", "file", captured_file [] 1700000000000)]
  /\ accepted (captured_file [] 1700000000000) = true.
Proof.
  split; [reflexivity|].
  refine (proj1 (only_checked_files_are_selected_and_sent OtherCameraJs
            (run OtherCameraJs [ClickScan (GumStream 1) true; ClickSnap good_capture]
               (loaded example_page (Some StaticUploadJs)))
            (ex_intro _ example_page (ex_intro _ (Some StaticUploadJs)
               (ex_intro _ [ClickScan (GumStream 1) true; ClickSnap good_capture]
                  eq_refl)))) _ _).
  reflexivity.
Defined.

Lemma camera_consistent_parts w w' :
  camera_parts w' = camera_parts w -> camera_consistent w -> camera_consistent w'.
Proof.
  unfold camera_parts, camera_consistent, cameraShown.
  intros Hp. injection Hp as -> -> ->. trivial.
Qed.

(** Closes [camera_consistent] on a world given by its fields. *)
Ltac consistent :=
  unfold camera_consistent, cameraShown;
  cbn [page cameraInterface cameraFeed cameraStream];
  split; [|split];
  [ let H := fresh in
    intros H; first [ discriminate H | eexists; reflexivity ]
  | let v := fresh "v" in
    let H := fresh in
    intros v H; first [ discriminate H | injection H as <-; reflexivity ]
  | let H := fresh in
    intros H;
    first [ destruct H as [? H]; discriminate H
          | split; [eexists; reflexivity|];
            first [ left; reflexivity | right; reflexivity ] ] ].

Lemma stopCamera_consistent cam w :
  is_Some (cameraFeed (page w)) ->
  camera_consistent (state_of (stopCamera_of cam w)).
Proof.
  intros [v Hv].
  destruct w as [[sb uf rp pt pv dz cf ci bs] sf cs cc wh st tr].
  cbn [page cameraFeed] in Hv. subst cf.
  destruct cam, cs, ci, dz, bs; exec; consistent.
Qed.

Lemma startCamera_consistent cam gum ok w :
  camera_consistent w ->
  camera_consistent (state_of (startCamera_of cam gum ok w)).
Proof.
  intros Hinv.
  destruct w as [[sb uf rp pt pv dz cf ci bs] sf cs cc wh st tr].
  destruct cf; [|destruct cam; exact Hinv].
  destruct cam, gum as [|n], ok, cs, ci, dz, bs; exec; consistent.
Qed.

Lemma capturePhoto_consistent cam env w :
  camera_consistent w ->
  camera_consistent (state_of (capturePhoto_of cam env w)).
Proof.
  intros Hinv.
  destruct (cameraStream w) as [sid|] eqn:Hcs.
  2:{ destruct cam; cbn; unfold StaticCamera.capturePhoto, OtherCamera.capturePhoto;
      rewrite Hcs; exact Hinv. }
  destruct (cameraFeed (page w)) as [v|] eqn:Hcf.
  2:{ destruct cam; cbn; unfold StaticCamera.capturePhoto, OtherCamera.capturePhoto;
      rewrite Hcs, Hcf; exact Hinv. }
  rewrite (capturePhoto_of_unfold cam env w sid v Hcs Hcf).
  unfold try_catch_then.
  assert (Hdf : preserves (fun w => (page w, cameraStream w)) (draw_frame env v))
    by (unfold draw_frame; frame).
  specialize (Hdf w). cbn beta in Hdf. injection Hdf as Hpg Hcs0.
  assert (Hinv0 : camera_consistent (state_of (draw_frame env v w))).
  { apply (camera_consistent_parts w); [|exact Hinv].
    unfold camera_parts. now rewrite Hpg, Hcs0. }
  destruct (draw_frame env v w) as [w0|w0]; cbn [state_of] in *.
  - destruct (blob env) as [bits|].
    + unfold and_then.
      assert (Hstop : camera_consistent (state_of (stopCamera_of cam w0))).
      { apply stopCamera_consistent. rewrite Hpg, Hcf. eauto. }
      destruct (stopCamera_of cam w0) as [w1|w1]; cbn [state_of] in *;
        [|exact Hstop].
      refine (camera_consistent_parts w1 _ _ Hstop).
      unfold pass_to_handleFile.
      destruct (window_handleFile w1) as [[]|]; [| |reflexivity].
      * assert (Hp : preserves camera_parts
                  (StaticUpload.handleFile (captured_file bits (timestamp env))
                     (capture_flag cam) (cap_read env) (cap_net env))).
        { assert (preserves camera_parts
                    (StaticUpload.classifyImage None (cap_net env))).
          { unfold StaticUpload.classifyImage, StaticUpload.displayResults,
              StaticUpload.showLoading, StaticUpload.hideLoading. frame. }
          unfold StaticUpload.handleFile, reader_settles,
            StaticUpload.reader_onload, StaticUpload.apply_preview. frame. }
        apply Hp.
      * assert (Hp : preserves camera_parts
                  (OtherUpload.handleFile (captured_file bits (timestamp env))
                     (cap_read env))).
        { unfold OtherUpload.handleFile, reader_settles,
            OtherUpload.reader_onload. frame. }
        apply Hp.
    + exact Hinv0.
  - exact Hinv0.
Qed.

Lemma classifyImage_of_camera_parts s e net :
  preserves camera_parts (classifyImage_of s e net).
Proof.
  destruct s; cbn [classifyImage_of].
  - unfold StaticUpload.classifyImage, StaticUpload.displayResults,
      StaticUpload.showLoading, StaticUpload.hideLoading. frame.
  - unfold OtherUpload.classifyImage, OtherUpload.displayResults,
      OtherUpload.showLoading, OtherUpload.hideLoading. frame.
Qed.

Lemma step_consistent cam w ev :
  camera_consistent w -> camera_consistent (step cam w ev).
Proof.
  intros Hinv. unfold step, handle. destruct ev as [gum ok|env|file rd|net].
  - destruct (scan_clickable (page w)); [|exact Hinv].
    now apply startCamera_consistent.
  - now apply capturePhoto_consistent.
  - destruct (window_handleFile w) as [s|]; [|exact Hinv].
    refine (camera_consistent_parts w _ _ Hinv).
    assert (Hp : preserves camera_parts (call_handleFile s file None rd FetchRejected)).
    { destruct s; unfold call_handleFile, StaticUpload.handleFile,
        OtherUpload.handleFile, reader_settles, StaticUpload.reader_onload,
        StaticUpload.apply_preview, OtherUpload.reader_onload;
        cbn [default from_option id]; frame. }
    apply Hp.
  - destruct (window_handleFile w) as [s|]; [|exact Hinv].
    refine (camera_consistent_parts w _ _ Hinv).
    exact (classifyImage_of_camera_parts s (Some tt) net w).
Qed.

(** X12.  From a page that loads with the camera interface not displayed
    and nothing on the video element, in every state reached by the
    page's events (both copies of either script): the camera interface is
    displayed only while a stream is held; the video element shows exactly
    the held stream ([srcObject] is [cameraStream]); and a stream is held
    only on a page that has the video element and whose camera interface,
    if it exists, is displayed. *)
Theorem camera_display_follows_the_stream
    (cam : CameraScript) (pg : Page) (upload : option UploadScript)
    (evs : list Event) :
  cameraShown pg = false ->
  (forall v, cameraFeed pg = Some v -> srcObject v = None) ->
  let w := run cam evs (loaded pg upload) in
  (cameraShown (page w) = true -> is_Some (cameraStream w))
  /\ (forall v, cameraFeed (page w) = Some v -> srcObject v = cameraStream w)
  /\ (is_Some (cameraStream w) ->
      is_Some (cameraFeed (page w))
      /\ (cameraInterface (page w) = None \/ cameraShown (page w) = true)).
Proof.
  intros Hshown Hsrc w. subst w.
  assert (H0 : camera_consistent (loaded pg upload)).
  { apply (camera_consistent_parts (fresh pg)).
    - destruct upload; reflexivity.
    - split; [|split].
      + cbn [fresh page]. rewrite Hshown. discriminate.
      + exact Hsrc.
      + intros [x Hx]. discriminate. }
  generalize dependent (loaded pg upload). intros w0 H0.
  revert w0 H0. induction evs as [|ev evs IH]; intros w0 H0; [exact H0|].
  apply IH, step_consistent, H0.
Qed.

Lemma camera_display_follows_the_stream_witness :
  is_Some (cameraStream
             (run StaticCameraJs
                [ClickScan (GumStream 1) true; ClickSnap null_blob_capture]
                (loaded example_page (Some StaticUploadJs)))).
Proof.
  refine (proj1 (camera_display_follows_the_stream StaticCameraJs
            example_page (Some StaticUploadJs)
            [ClickScan (GumStream 1) true; ClickSnap null_blob_capture]
            eq_refl _) eq_refl).
  intros v [= <-]. reflexivity.
Defined.

(** ** The listeners of the intake surface *)

Lemma static_handleFile_requested file rd net :
  preserves requested (StaticUpload.handleFile file None rd net).
Proof.
  unfold StaticUpload.handleFile, reader_settles, StaticUpload.reader_onload,
    StaticUpload.apply_preview.
  cbn [default from_option id].
  repeat (frame_step ltac:(no_request)).
Qed.

(** X13.  A drop, in both copies of [upload.js]: the highlight of the
    dropzone is cleared, whatever was dropped; no request is issued; of
    several dropped files only the first is handled, by [handleFile]
    without the flag, the others are ignored.  An empty drop raises the
    alert "Drag & drop failed..." in [static/upload.js] and leaves the
    selection and the page alone; the second copy says nothing.  Only
    [static/upload.js] asks to scroll to the submit button, and only when
    a file was dropped. *)
Theorem drop_handles_first_file_only
    (files : list File) (rd : ReadOutcome) (s : Intake) :
  (drag_over (StaticListeners.handleDrop files rd (handleDragOver s)) = false
   /\ drag_over (OtherListeners.handleDrop files rd (handleDragOver s)) = false)
  /\ (requested (world (StaticListeners.handleDrop files rd s)) = requested (world s)
      /\ requested (world (OtherListeners.handleDrop files rd s)) = requested (world s))
  /\ match files with
     | file :: rest =>
         StaticListeners.handleDrop files rd s
         = StaticListeners.handleDrop [file] rd s
         /\ OtherListeners.handleDrop files rd s
            = OtherListeners.handleDrop [file] rd s
         /\ world (StaticListeners.handleDrop files rd s)
            = state_of (StaticUpload.handleFile file None rd FetchRejected
                          (emit PreventDefault (world s)))
         /\ world (OtherListeners.handleDrop files rd s)
            = state_of (OtherUpload.handleFile file rd
                          (emit PreventDefault (world s)))
         /\ gestures (OtherListeners.handleDrop files rd s) = gestures s
     | [] =>
         world (StaticListeners.handleDrop files rd s)
         = emit (Alert drop_failed_msg) (emit PreventDefault (world s))
         /\ world (OtherListeners.handleDrop files rd s)
            = emit PreventDefault (world s)
         /\ gestures (StaticListeners.handleDrop files rd s) = gestures s
         /\ gestures (OtherListeners.handleDrop files rd s) = gestures s
     end.
Proof.
  split; [|split].
  - unfold StaticListeners.handleDrop, OtherListeners.handleDrop.
    destruct files as [|file rest]; cbn [with_drag_over with_world world drag_over];
      [split; reflexivity|].
    split; [|reflexivity].
    destruct (StaticUpload.handleFile _ _ _ _ _) as [w2|w2]; [|reflexivity].
    destruct (submitBtn (page w2)); reflexivity.
  - unfold StaticListeners.handleDrop, OtherListeners.handleDrop.
    destruct files as [|file rest]; cbn [with_drag_over with_world world].
    + split; unfold requested; cbn [trace emit]; rewrite ?requests_app;
        cbn; now rewrite ?app_nil_r.
    + assert (Hpd : requested (emit PreventDefault (world s)) = requested (world s)).
      { unfold requested. cbn [trace emit]. rewrite requests_app. cbn.
        apply app_nil_r. }
      split.
      * pose proof (static_handleFile_requested file rd FetchRejected
                      (emit PreventDefault (world s))) as H.
        destruct (StaticUpload.handleFile _ _ _ _ _) as [w2|w2];
          cbn [state_of] in H;
          [destruct (submitBtn (page w2))|]; cbn [ask with_world world];
          congruence.
      * rewrite (other_handleFile_requested file rd). exact Hpd.
  - unfold StaticListeners.handleDrop, OtherListeners.handleDrop.
    destruct files as [|file rest]; cbn [with_drag_over with_world world gestures];
      [repeat split|].
    split; [reflexivity|]. split; [reflexivity|].
    split; [|split; reflexivity].
    destruct (StaticUpload.handleFile _ _ _ _ _) as [w2|w2]; [|reflexivity].
    destruct (submitBtn (page w2)); reflexivity.
Qed.

(** X14.  The dropzone opens the file picker only while nothing is
    selected, in both copies: a click changes nothing in the world; once
    the picker has delivered a file with an allowed extension, a click on
    the dropzone no longer opens it; after a file that was refused, with
    nothing selected before and the input element on the page, the click
    opens it again. *)
Theorem picker_opens_only_without_selection
    (file : File) (rest : list File) (rd : ReadOutcome) (s : Intake) :
  world (StaticListeners.dropzone_click s) = world s
  /\ world (OtherListeners.dropzone_click s) = world s
  /\ (if accepted file
      then StaticListeners.dropzone_click
             (StaticListeners.handleFileInputChange (file :: rest) rd s)
           = StaticListeners.handleFileInputChange (file :: rest) rd s
           /\ OtherListeners.dropzone_click
                (OtherListeners.handleFileInputChange (file :: rest) rd s)
              = OtherListeners.handleFileInputChange (file :: rest) rd s
      else selectedFile (world s) = None -> fileInput s = true ->
           gestures (StaticListeners.dropzone_click
                       (StaticListeners.handleFileInputChange (file :: rest) rd s))
           = gestures s ++ [OpenFilePicker]
           /\ gestures (OtherListeners.dropzone_click
                          (OtherListeners.handleFileInputChange (file :: rest) rd s))
              = gestures s ++ [OpenFilePicker]).
Proof.
  split; [|split].
  - unfold StaticListeners.dropzone_click.
    destruct (selectedFile (world s)), (fileInput s); reflexivity.
  - unfold OtherListeners.dropzone_click.
    destruct (selectedFile (world s)), (fileInput s); reflexivity.
  - unfold accepted.
    destruct (fileExtension_is_Some (file_name file)) as [ext Hext].
    rewrite Hext.
    unfold StaticListeners.dropzone_click, OtherListeners.dropzone_click,
      StaticListeners.handleFileInputChange, OtherListeners.handleFileInputChange.
    cbn [with_world world fileInput gestures].
    destruct (includes allowedExtensions ext) eqn:Hin.
    + rewrite (static_handleFile_selects file ext None rd FetchRejected _ Hext Hin),
        (other_handleFile_selects file ext rd _ Hext Hin).
      split; reflexivity.
    + intros Hsel Hfi.
      unfold StaticUpload.handleFile, OtherUpload.handleFile.
      rewrite Hext, Hin. cbn [negb state_of selectedFile emit].
      rewrite Hsel, Hfi. split; reflexivity.
Qed.

Lemma picker_opens_only_without_selection_witness :
  let s := {| world := loaded example_page (Some StaticUploadJs);
              drag_over := false; fileInput := true; gestures := [] |} in
  gestures (StaticListeners.dropzone_click
              (StaticListeners.handleFileInputChange [doc_pdf] ReadFailed s))
  = [OpenFilePicker].
Proof.
  exact (proj1 (proj2 (proj2 (picker_opens_only_without_selection doc_pdf []
           ReadFailed
           {| world := loaded example_page (Some StaticUploadJs);
              drag_over := false; fileInput := true; gestures := [] |}))
         eq_refl eq_refl)).
Defined.

(** ** Selections and submissions, one after the other *)

Lemma static_handleFile_window file flag rd net :
  preserves window_handleFile (StaticUpload.handleFile file flag rd net).
Proof.
  assert (preserves window_handleFile (StaticUpload.classifyImage None net)).
  { unfold StaticUpload.classifyImage, StaticUpload.displayResults,
      StaticUpload.showLoading, StaticUpload.hideLoading. frame. }
  unfold StaticUpload.handleFile, reader_settles, StaticUpload.reader_onload,
    StaticUpload.apply_preview. frame.
Qed.

Lemma static_handleFile_refused file ext flag rd net w :
  fileExtension (file_name file) = Some ext ->
  includes allowedExtensions ext = false ->
  StaticUpload.handleFile file flag rd net w = Done (emit (Alert invalid_type_msg) w).
Proof. intros He Hi. unfold StaticUpload.handleFile. now rewrite He, Hi. Qed.

(** X15.  With [static/upload.js] loaded, a submit sends the file of the
    last selection that passed the check: after a first file that passed
    and a second selection, the request of the submit carries the second
    file when it passed the check and still the first when the second was
    refused; the selections themselves issue no request. *)
Theorem submit_sends_last_accepted_selection
    (cam : CameraScript) (f1 f2 : File) (rd1 rd2 : ReadOutcome)
    (net : FetchOutcome) (w : World) :
  window_handleFile w = Some StaticUploadJs ->
  accepted f1 = true ->
  requested (run cam [ChooseFile f1 rd1; ChooseFile f2 rd2; SubmitForm net] w)
  = requested w ++ [("/predict", "file", if accepted f2 then f2 else f1)].
Proof.
  intros Hwh Hacc1.
  unfold accepted in *.
  destruct (fileExtension_is_Some (file_name f1)) as [e1 He1].
  destruct (fileExtension_is_Some (file_name f2)) as [e2 He2].
  rewrite He1 in Hacc1. rewrite He2.
  cbn [run fold_left]. unfold step at 3. unfold handle. rewrite Hwh.
  cbn [call_handleFile].
  set (w1 := state_of (StaticUpload.handleFile f1 None rd1 FetchRejected w)).
  assert (Hwh1 : window_handleFile w1 = Some StaticUploadJs).
  { subst w1. now rewrite static_handleFile_window. }
  assert (Hs1 : selectedFile w1 = Some f1)
    by (apply (static_handleFile_selects f1 e1); assumption).
  assert (Hr1 : requested w1 = requested w)
    by apply static_handleFile_requested.
  unfold step at 2. unfold handle. rewrite Hwh1. cbn [call_handleFile].
  set (w2 := state_of (StaticUpload.handleFile f2 None rd2 FetchRejected w1)).
  assert (Hwh2 : window_handleFile w2 = Some StaticUploadJs).
  { subst w2. now rewrite static_handleFile_window. }
  assert (Hr2 : requested w2 = requested w).
  { subst w2. now rewrite static_handleFile_requested. }
  assert (Hs2 : selectedFile w2
                = Some (if includes allowedExtensions e2 then f2 else f1)).
  { subst w2. destruct (includes allowedExtensions e2) eqn:Hin2.
    - now apply (static_handleFile_selects f2 e2).
    - now rewrite (static_handleFile_refused f2 e2 _ _ _ _ He2 Hin2). }
  unfold step, handle. rewrite Hwh2.
  cbn [classifyImage_of call_async state_of]. unfold requested in *.
  rewrite (static_classifyImage_requests (Some tt) net w2 _ Hs2). congruence.
Qed.

Lemma submit_sends_last_accepted_selection_witness :
  requested (run StaticCameraJs
               [ChooseFile photo_png ReadFailed; ChooseFile doc_pdf ReadFailed;
                SubmitForm FetchRejected]
               (loaded example_page (Some StaticUploadJs)))
  = [("/predict", "file", photo_png)].
Proof.
  exact (submit_sends_last_accepted_selection StaticCameraJs photo_png doc_pdf
           ReadFailed ReadFailed FetchRejected
           (loaded example_page (Some StaticUploadJs)) eq_refl eq_refl).
Defined.

(** X16.  When the reader fails, so that [onload] never runs, the two
    copies of [upload.js] differ for a file that passed the check.  In
    [static/upload.js] the file is selected and the read was asked for, but
    the page is exactly as before: no preview, and the submit button is
    not touched.  In the second copy the button, when the page has it, is
    enabled by the call itself; on a page without the button the call
    throws at that write, after the file was selected and the read was
    asked for. *)
Theorem handleFile_when_the_reader_fails
    (file : File) (ext : string) (flag : option bool) (net : FetchOutcome)
    (w : World) :
  fileExtension (file_name file) = Some ext ->
  includes allowedExtensions ext = true ->
  StaticUpload.handleFile file flag ReadFailed net w
  = Done (emit (ReadAsDataURL file) (set_selectedFile (Some file) w))
  /\ page (state_of (StaticUpload.handleFile file flag ReadFailed net w)) = page w
  /\ match submitBtn (page w) with
     | Some b =>
         OtherUpload.handleFile file ReadFailed w
         = Done (emit (SetDisabled false)
                  (set_page (put_submitBtn (with_disabled false))
                    (emit (ReadAsDataURL file) (set_selectedFile (Some file) w))))
         /\ submitBtn (page (state_of (OtherUpload.handleFile file ReadFailed w)))
            = Some (with_disabled false b)
     | None =>
         OtherUpload.handleFile file ReadFailed w
         = Threw (emit (ReadAsDataURL file) (set_selectedFile (Some file) w))
     end.
Proof.
  intros He Hi.
  unfold StaticUpload.handleFile, OtherUpload.handleFile. rewrite He, Hi.
  cbn [negb reader_settles].
  split; [reflexivity|]. split; [reflexivity|].
  destruct w as [[sb uf rp pt pv dz cf ci bs] sf cs cc wh st tr].
  cbn [page submitBtn]. destruct sb as [b|]; [split|]; exec; reflexivity.
Qed.

Lemma handleFile_when_the_reader_fails_witness :
  page (state_of (StaticUpload.handleFile photo_png None ReadFailed FetchRejected
                    (loaded example_page (Some StaticUploadJs))))
  = page (loaded example_page (Some StaticUploadJs)).
Proof.
  exact (proj1 (proj2 (handleFile_when_the_reader_fails photo_png "png" None
           FetchRejected (loaded example_page (Some StaticUploadJs))
           eq_refl eq_refl))).
Defined.

(** ** The device after a capture *)

(** X17.  In a state reached from the loaded page by events that do not
    overlap, a capture that succeeds (a stream is held, the video element
    exists, the frame is drawn and encoded) leaves no stream of the device
    with a live track, and no stream handle.  Both copies. *)
Theorem capture_releases_the_device
    (cam : CameraScript) (env : CaptureEnv) (w : World) (bits : list Byte.byte) :
  reachable cam w ->
  is_Some (cameraStream w) ->
  is_Some (cameraFeed (page w)) ->
  draw_ok env = true ->
  blob env = Some bits ->
  live_streams (step cam w (ClickSnap env)) = []
  /\ cameraStream (step cam w (ClickSnap env)) = None.
Proof.
  intros (pg & upload & evs & ->) [sid Hcs] [v Hcf] Hdraw Hblob.
  pose proof (run_keeps_inv cam evs _ (loaded_inv pg upload)) as [Hlive _].
  set (w := run cam evs (loaded pg upload)) in *.
  destruct (capture_success_session cam env w sid v bits Hcs Hcf Hdraw Hblob)
    as [[Hnone Hdead] Hother].
  unfold step, handle. split; [|exact Hnone].
  set (w' := state_of (capturePhoto_of cam env w)) in *.
  destruct (live_streams w') as [|i l] eqn:Hl; [reflexivity|exfalso].
  assert (Hi : is_live w' i).
  { apply live_streams_spec. rewrite Hl. constructor. }
  unfold is_live, live_at in Hi.
  destruct (decide (i = sid)) as [->|Hne]; [congruence|].
  rewrite (Hother i Hne) in Hi.
  specialize (Hlive i Hi). congruence.
Qed.

Lemma capture_releases_the_device_witness :
  live_streams (step OtherCameraJs (camera_on OtherCameraJs StaticUploadJs)
                  (ClickSnap good_capture)) = []
  /\ cameraStream (step OtherCameraJs (camera_on OtherCameraJs StaticUploadJs)
                     (ClickSnap good_capture)) = None.
Proof.
  apply (capture_releases_the_device OtherCameraJs good_capture
           (camera_on OtherCameraJs StaticUploadJs) []).
  - exists example_page, (Some StaticUploadJs), [ClickScan (GumStream 1) true].
    reflexivity.
  - eexists; reflexivity.
  - eexists; reflexivity.
  - reflexivity.
  - reflexivity.
Defined.

(** ** Which handlers can throw *)

Section Returns.

Lemma returns_skip : returns skip.
Proof. intros w. now exists w. Qed.

Lemma returns_lift f : returns (lift f).
Proof. intros w. now exists (f w). Qed.

Lemma returns_and_then p q : returns p -> returns q -> returns (p ;;; q).
Proof.
  intros Hp Hq w. unfold and_then. destruct (Hp w) as [w1 ->]. apply Hq.
Qed.

Lemma returns_try_catch body handler :
  returns handler -> returns (try_catch body handler).
Proof.
  intros Hh w. unfold try_catch. destruct (body w) as [w1|w1]; [now exists w1|apply Hh].
Qed.

Lemma returns_try_finally body fin :
  returns body -> returns fin -> returns (try_finally body fin).
Proof.
  intros Hb Hf w. unfold try_finally. destruct (Hb w) as [w1 ->]. apply Hf.
Qed.

Lemma returns_try_catch_then body handler later :
  returns handler -> returns later -> returns (try_catch_then body handler later).
Proof.
  intros Hh Hl w. unfold try_catch_then. destruct (body w); [apply Hl|apply Hh].
Qed.

Lemma returns_call_async p : returns (call_async p).
Proof. intros w. now exists (state_of (p w)). Qed.

End Returns.

Lemma static_hideLoading_returns : returns StaticUpload.hideLoading.
Proof.
  intros w. unfold StaticUpload.hideLoading.
  destruct (submitBtn (page w)); eexists; reflexivity.
Qed.

Lemma static_classifyImage_returns e net :
  returns (StaticUpload.classifyImage e net).
Proof.
  unfold StaticUpload.classifyImage. apply returns_and_then.
  - destruct e; [apply returns_lift|apply returns_skip].
  - intros w. destruct (selectedFile w) as [file|]; [|eexists; reflexivity].
    apply returns_try_finally; [|exact static_hideLoading_returns].
    apply returns_try_catch.
    apply returns_and_then; apply returns_lift.
Qed.

Lemma static_handleFile_returns file flag rd net :
  returns (StaticUpload.handleFile file flag rd net).
Proof.
  intros w. unfold StaticUpload.handleFile.
  destruct (fileExtension_is_Some (file_name file)) as [ext ->].
  destruct (negb (includes allowedExtensions ext)); [eexists; reflexivity|].
  revert w. do 2 (apply returns_and_then; [apply returns_lift|]).
  destruct rd as [result|]; [|exact returns_skip].
  unfold reader_settles, StaticUpload.reader_onload, StaticUpload.apply_preview.
  repeat (apply returns_and_then; try apply returns_lift).
  - intros w. destruct (submitBtn (page w)); eexists; reflexivity.
  - destruct (default false flag); [apply returns_call_async|apply returns_skip].
Qed.

Lemma release_stream_returns : returns release_stream.
Proof.
  intros w. unfold release_stream. destruct (cameraStream w); eexists; reflexivity.
Qed.

Lemma other_stopCamera_returns : returns OtherCamera.stopCamera.
Proof.
  unfold OtherCamera.stopCamera.
  apply returns_and_then; [exact release_stream_returns|].
  repeat (apply returns_and_then; try apply returns_lift).
Qed.

Lemma other_stopCamera_window : preserves window_handleFile OtherCamera.stopCamera.
Proof. unfold OtherCamera.stopCamera, release_stream. frame. Qed.

Lemma draw_frame_window env v : preserves window_handleFile (draw_frame env v).
Proof. unfold draw_frame. frame. Qed.

(** X18.  The handlers that test every element before they use it never
    throw, whatever the page lacks and whatever the environment answers:
    [handleFile] and [classifyImage] of [static/upload.js], and
    [stopCamera] and [startCamera] of the second [camera.js].  The
    [capturePhoto] of the second [camera.js] never throws either unless
    the upload script it hands the capture to is the second one. *)
Theorem null_checked_handlers_never_throw :
  (forall file flag rd net, returns (StaticUpload.handleFile file flag rd net))
  /\ (forall e net, returns (StaticUpload.classifyImage e net))
  /\ returns OtherCamera.stopCamera
  /\ (forall gum play_ok, returns (OtherCamera.startCamera gum play_ok))
  /\ (forall env w,
        window_handleFile w <> Some OtherUploadJs ->
        exists w', OtherCamera.capturePhoto env w = Done w').
Proof.
  split; [exact static_handleFile_returns|].
  split; [exact static_classifyImage_returns|].
  split; [exact other_stopCamera_returns|].
  split.
  - intros gum play_ok w. unfold OtherCamera.startCamera.
    destruct (cameraFeed (page w)); [|eexists; reflexivity].
    apply returns_try_catch. unfold OtherCamera.start_failed.
    do 2 (apply returns_and_then; [apply returns_lift|]).
    exact other_stopCamera_returns.
  - intros env w Hwh. unfold OtherCamera.capturePhoto.
    destruct (cameraStream w) as [sid|]; [|eexists; reflexivity].
    destruct (cameraFeed (page w)) as [v|]; [|eexists; reflexivity].
    unfold try_catch_then.
    pose proof (draw_frame_window env v w) as Hw0.
    destruct (draw_frame env v w) as [w0|w0]; cbn [state_of] in Hw0.
    + unfold OtherCamera.toBlob_callback.
      destruct (blob env) as [bits|]; [|eexists; reflexivity].
      unfold and_then.
      pose proof (other_stopCamera_window w0) as Hw1.
      destruct (other_stopCamera_returns w0) as [w1 Hs]. rewrite Hs in *.
      cbn [state_of] in Hw1. unfold pass_to_handleFile.
      destruct (window_handleFile w1) as [[|]|] eqn:Hh.
      * apply static_handleFile_returns.
      * congruence.
      * eexists; reflexivity.
    + unfold capture_failed. eexists; reflexivity.
Qed.

Lemma null_checked_handlers_never_throw_witness :
  exists w', OtherCamera.capturePhoto good_capture
               (camera_on OtherCameraJs StaticUploadJs) = Done w'.
Proof.
  apply (proj2 (proj2 (proj2 (proj2 null_checked_handlers_never_throw)))).
  discriminate.
Defined.
